(** * EduIntel backend: the answer-scoring pipeline of [app.py]

    A shallow embedding of [extract_text], [split_answers] and the
    [/analyze] route, with the properties of the scoring pipeline proved
    over it.

    - Python [float]s are IEEE 754 binary64 numbers, modelled with the
      [spec_float] operations of the standard library at precision 53 and
      maximal exponent 1024; Python [int]s are [Z].
    - Texts are [string]s; a character is a code point below 256, and the
      character classes of [re] and [str.strip] are the Unicode ones on
      that range.
    - [PyPDF2], [pdf2image], [pytesseract] and the sentence-embedding model
      are parameters of the development; every call into them is recorded
      in a trace. *)

From Stdlib Require Import ZArith Lia List Bool Ascii String.
From Stdlib Require Import Floats.SpecFloat.
Import ListNotations.

Local Open Scope Z_scope.

(** ** Python floats (binary64) *)

Module F64.

Definition prec : Z := 53.
Definition emax : Z := 1024.

Definition mul := SFmul prec emax.
Definition add := SFadd prec emax.
Definition div := SFdiv prec emax.
Definition ltb := SFltb.
Definition leb := SFleb.
Definition valid := valid_binary prec emax.

(** [float(z)] for a Python int [z]: the nearest binary64 number. *)
Definition of_Z (z : Z) : spec_float := binary_normalize prec emax z 0 false.

(** The float literal [0.20], that is [0x1.999999999999ap-3]. *)
Definition c020 : spec_float := S754_finite false 7205759403792794 (-55).

(** The floats [0.9], [0.3], [0.1] and [40.0]. *)
Definition c090 : spec_float := S754_finite false 8106479329266893 (-53).
Definition c030 : spec_float := S754_finite false 5404319552844595 (-54).
Definition c010 : spec_float := S754_finite false 7205759403792794 (-56).
Definition c40 : spec_float := S754_finite false 5629499534213120 (-47).

(** Nearest integer to [a / b] for [0 < b], ties to the even one. *)
Definition div_half_even (a b : Z) : Z :=
  let q := a / b in
  match (2 * (a mod b)) ?= b with
  | Lt => q
  | Gt => q + 1
  | Eq => if Z.even q then q else q + 1
  end.

(** The integer [n] such that [n / 100] is the two-decimal number nearest
    to [m * 2^e] (what [_Py_dg_dtoa] in mode 3 with two digits returns). *)
Definition centis (m : positive) (e : Z) : Z :=
  match e with
  | Zneg p => div_half_even (Zpos m * 100) (2 ^ Zpos p)
  | _ => Zpos m * 2 ^ e * 100
  end.

(** [round(x, 2)] on a float: [float.__round__] rounds the exact value of
    [x] to two decimals, ties to even, and converts that decimal back to
    the nearest float ([_Py_dg_strtod]); zeros, infinities and nans round
    to themselves. *)
Definition round2 (x : spec_float) : spec_float :=
  match x with
  | S754_finite s m e =>
      match centis m e with
      | Zpos n => div (S754_finite s n 0) (S754_finite false 100 0)
      | _ => S754_zero s
      end
  | _ => x
  end.

End F64.


(** ** Python numbers: [int] and [float] *)

Inductive pynum :=
  | PyInt (z : Z)
  | PyFloat (f : spec_float).

(** Conversion of a number to [float] where an operation mixes the two. *)
Definition to_float (x : pynum) : spec_float :=
  match x with
  | PyInt z => F64.of_Z z
  | PyFloat f => f
  end.

Definition py_mul (x y : pynum) : pynum :=
  match x, y with
  | PyInt a, PyInt b => PyInt (a * b)
  | _, _ => PyFloat (F64.mul (to_float x) (to_float y))
  end.

Definition py_add (x y : pynum) : pynum :=
  match x, y with
  | PyInt a, PyInt b => PyInt (a + b)
  | _, _ => PyFloat (F64.add (to_float x) (to_float y))
  end.

(** True division [x / y]; the route divides by [len(similarities)] only,
    which is positive, so [ZeroDivisionError] is not modelled. *)
Definition py_truediv (x y : pynum) : pynum :=
  PyFloat (F64.div (to_float x) (to_float y)).

(** [x <= y] and [x < y]; a comparison with a nan is false.  An int
    compared with a float is converted to a float, which is exact for the
    ints of the route (0, 20, 45, 75). *)
Definition py_le (x y : pynum) : bool :=
  match x, y with
  | PyInt a, PyInt b => a <=? b
  | _, _ => F64.leb (to_float x) (to_float y)
  end.

Definition py_lt (x y : pynum) : bool :=
  match x, y with
  | PyInt a, PyInt b => a <? b
  | _, _ => F64.ltb (to_float x) (to_float y)
  end.

(** [round(x, 2)]: an int is returned unchanged. *)
Definition py_round2 (x : pynum) : pynum :=
  match x with
  | PyInt z => PyInt z
  | PyFloat f => PyFloat (F64.round2 f)
  end.

(** [sum(l)]: the items are added from left to right, starting from the
    int [0].  (From version 3.12 on CPython carries a compensation term
    through a sum of floats; the sum modelled here is the plain one.) *)
Definition py_sum (l : list pynum) : pynum := fold_left py_add l (PyInt 0).

(** ** Texts: character classes, [str.strip] and [re.split] *)

Local Open Scope string_scope.

Definition code (c : ascii) : N := N_of_ascii c.

(** [\d]: the decimal digits. *)
Definition is_digit (c : ascii) : bool :=
  ((48 <=? code c) && (code c <=? 57))%N.

(** [\w]: letters, digits and the underscore, with the letters and
    numeric characters of the range 128 to 255. *)
Definition is_word (c : ascii) : bool :=
  let n := code c in
  (is_digit c
   || ((65 <=? n) && (n <=? 90)) || ((97 <=? n) && (n <=? 122)) || (n =? 95)
   || (n =? 170) || (n =? 178) || (n =? 179) || (n =? 181) || (n =? 185)
   || (n =? 186) || ((188 <=? n) && (n <=? 190))
   || ((192 <=? n) && (n <=? 214)) || ((216 <=? n) && (n <=? 246))
   || (248 <=? n))%N.

(** Whitespace, as [str.strip] sees it. *)
Definition is_space (c : ascii) : bool :=
  let n := code c in
  (((9 <=? n) && (n <=? 13)) || ((28 <=? n) && (n <=? 32))
   || (n =? 133) || (n =? 160))%N.

Fixpoint lstrip (s : string) : string :=
  match s with
  | String c s' => if is_space c then lstrip s' else s
  | EmptyString => EmptyString
  end.

Fixpoint rstrip (s : string) : string :=
  match s with
  | String c s' =>
      match rstrip s' with
      | EmptyString => if is_space c then EmptyString else String c EmptyString
      | t => String c t
      end
  | EmptyString => EmptyString
  end.

(** The text of one line feed. *)
Definition newline : string := String (ascii_of_nat 10) EmptyString.

(** [s.strip()] *)
Definition strip (s : string) : string := rstrip (lstrip s).

(** [\d+\.] at the head of [s]: the number of characters matched.  The
    digit run is greedy; giving a digit back is tried when the longer run
    fails. *)
Fixpoint digits_dot (s : string) : option nat :=
  match s with
  | String c s' =>
      if is_digit c then
        match digits_dot s' with
        | Some n => Some (S n)
        | None =>
            match s' with
            | String d _ => if Ascii.eqb d "." then Some 2%nat else None
            | EmptyString => None
            end
        end
      else None
  | EmptyString => None
  end.

(** [Q?\d+\.] at the head of [s]: [Q?] is greedy, the match with the [Q]
    is tried first. *)
Definition optional_Q_digits_dot (s : string) : option nat :=
  match s with
  | String c s' =>
      if Ascii.eqb c "Q" then
        match digits_dot s' with
        | Some n => Some (S n)
        | None => digits_dot s
        end
      else digits_dot s
  | EmptyString => None
  end.

(** [\b] between the character before the position ([None] at the start of
    the text) and the text [s] that follows. *)
Definition word_boundary (prev : option ascii) (s : string) : bool :=
  let before := match prev with Some c => is_word c | None => false end in
  let after := match s with String c _ => is_word c | EmptyString => false end in
  xorb before after.

(** The pattern [(?:\bQ?\d+\.)] of [split_answers] at the head of [s],
    which follows the character [prev]: the number of characters
    matched. *)
Definition pattern (prev : option ascii) (s : string) : option nat :=
  if word_boundary prev s then optional_Q_digits_dot s else None.

(** The scan of [re.split] for a pattern [pat] that matches no empty text,
    from left to right: [prev] is the character before the position and
    [skip] the number of characters of the current match still to pass.
    The head of the result is the part that runs up to the next match. *)
Fixpoint split_scan (pat : option ascii -> string -> option nat)
    (prev : option ascii) (skip : nat) (s : string) : list string :=
  match s with
  | EmptyString => [EmptyString]
  | String c s' =>
      match skip with
      | S k => split_scan pat (Some c) k s'
      | O =>
          match pat prev s with
          | Some (S k) => EmptyString :: split_scan pat (Some c) k s'
          | _ =>
              match split_scan pat (Some c) O s' with
              | part :: parts => String c part :: parts
              | [] => []
              end
          end
      end
  end.

(** [re.split(pat, text)] *)
Definition re_split (pat : option ascii -> string -> option nat)
    (text : string) : list string :=
  split_scan pat None 0 text.

(** ** The module [app.py] *)

Module App.

(** [split_answers(text)] *)
Definition split_answers (text : string) : list string :=
  let parts := re_split pattern text in
  fold_left
    (fun cleaned part =>
       let part := strip part in
       if (20 <? String.length part)%nat then (cleaned ++ [part])%list else cleaned)
    parts [].


(** *** Calls into the libraries, and what the route prints *)

Inductive event :=
  | EvPdfReader (doc : string)       (* PyPDF2.PdfReader(pdf_file) *)
  | EvConvert (doc : string)         (* convert_from_bytes(pdf_file.read()) *)
  | EvImageToString (page : nat)     (* pytesseract.image_to_string(image) *)
  | EvEncode (texts : list string)   (* model.encode(texts) *)
  | EvCosSim (i : nat)               (* util.cos_sim(t[i], s[i]) *)
  | EvPrint (msg : string).          (* print(msg, ...) *)

(** A computation that records its calls. *)
Definition traced (A : Type) : Type := list event * A.

Definition ret {A} (a : A) : traced A := ([], a).

Definition bind {A B} (m : traced A) (k : A -> traced B) : traced B :=
  let '(l1, a) := m in
  let '(l2, b) := k a in
  ((l1 ++ l2)%list, b).

Definition tell (e : event) : traced unit := ([e], tt).

Declare Scope traced_scope.
Delimit Scope traced_scope with traced.
Notation "x <- m ;; k" := (bind m (fun x => k))
  (at level 61, m at next level, right associativity) : traced_scope.
Notation "m ;; k" := (bind m (fun _ => k))
  (at level 61, right associativity) : traced_scope.
Notation "' p <- m ;; k" := (bind m (fun x => let p := x in k))
  (at level 61, p pattern, m at next level, right associativity) : traced_scope.

Definition trace_of {A} (m : traced A) : list event := fst m.
Definition value_of {A} (m : traced A) : A := snd m.

(** The calls of the OCR fallback, and the calls of the scorer. *)
Definition ocr_event (e : event) : Prop :=
  match e with
  | EvConvert _ | EvImageToString _ => True
  | _ => False
  end.

Definition scoring_event (e : event) : Prop :=
  match e with
  | EvEncode _ | EvCosSim _ => True
  | _ => False
  end.

(** *** The request and the response *)

(** An uploaded file: its name and its bytes. *)
Record upload := { filename : string; content : string }.

(** [request.files]: the uploaded files by field name, in order. *)
Definition files := list (string * upload).

(** [request.files.getlist(key)] *)
Definition getlist (key : string) (fs : files) : list upload :=
  map snd (filter (fun kv => String.eqb (fst kv) key) fs).

(** [request.files[key]] where [key in request.files]: the first file of
    the field. *)
Definition getfirst (key : string) (fs : files) : option upload :=
  hd_error (getlist key fs).

Record question_result := {
  question_number : Z;
  similarity_percent : pynum;
  status : string
}.

Record student_result := {
  pdf_name : string;
  questions : list question_result;
  performance_score : pynum
}.

(** The exception the body of the route can raise: an index past the end
    of an embedding tensor. *)
Inductive exn := IndexError (i : nat).

Inductive body :=
  | Error (msg : string)                    (* {"error": msg} *)
  | Success (data : list student_result)    (* {"success": True, "data": data} *)
  | Failure (e : exn).                      (* {"success": False, "error": str(e)} *)

Record response := { http_status : Z; json : body }.

(** What a page gives to [page.extract_text()]: a text (the empty one
    stands for every falsy result), or an exception. *)
Inductive page_read :=
  | PageText (extracted : string)
  | PageRaises.

Section Route.

(** The libraries.  [pdf_reader doc] is [PyPDF2.PdfReader] on the bytes
    [doc], with what each page extracts to ([None]: the reader raises);
    [convert_from_bytes doc] the page images of [pdf2image] ([None]: it
    raises); [image_to_string] the OCR of one image ([None]: it raises);
    [encode] and [cos_sim] the embedding model and its cosine
    similarity, as a Python float. *)
Variable pdf_reader : string -> option (list page_read).
Variable image : Type.
Variable convert_from_bytes : string -> option (list image).
Variable image_to_string : image -> option string.
Variable embedding : Type.
Variable encode : list string -> list embedding.
Variable cos_sim : embedding -> embedding -> spec_float.

Local Open Scope traced_scope.

(** Lines 28-31: the loop over [reader.pages].  The flag tells whether a
    page raised; the text read before it is kept. *)
Fixpoint read_pages (pages : list page_read) (text : string)
    : string * bool :=
  match pages with
  | [] => (text, false)
  | PageText extracted :: rest =>
      read_pages rest
        (if String.eqb extracted EmptyString then text else text ++ extracted ++ newline)
  | PageRaises :: _ => (text, true)
  end.

(** Lines 46-48: the loop over the page images. *)
Fixpoint ocr_pages (page : nat) (images : list image) (text : string)
    : traced (string * bool) :=
  match images with
  | [] => ret (text, false)
  | img :: rest =>
      tell (EvImageToString page) ;;
      match image_to_string img with
      | Some ocr_text => ocr_pages (S page) rest (text ++ ocr_text ++ newline)
      | None => ret (text, true)
      end
  end.

(** [extract_text(pdf_file)] *)
Definition extract_text (pdf_file : upload) : traced string :=
  let text := EmptyString in
  (* try: normal PDF text extraction *)
  '(text, raised) <-
     (tell (EvPdfReader (content pdf_file)) ;;
      match pdf_reader (content pdf_file) with
      | Some pages => ret (read_pages pages text)
      | None => ret (text, true)
      end) ;;
  if negb raised && (50 <? String.length (strip text))%nat then ret text
  else
    (if raised then tell (EvPrint "Normal extraction failed:") else ret tt) ;;
    (* OCR fallback *)
    tell (EvPrint "Switching to OCR...") ;;
    tell (EvConvert (content pdf_file)) ;;
    '(text, raised) <-
       match convert_from_bytes (content pdf_file) with
       | Some images => ocr_pages 0 images text
       | None => ret (text, true)
       end ;;
    (if raised then tell (EvPrint "OCR failed:") else ret tt) ;;
    ret text.


(** Lines 139-146: the label of a percentage. *)
Definition status_of (percent_score : pynum) : string :=
  if py_le (PyInt 75) percent_score then "Strong Understanding"
  else if py_le (PyInt 45) percent_score then "Partial Understanding"
  else if py_lt (PyInt 0) percent_score then "Weak Understanding"
  else "Not Related".

(** Lines 131-133: the noise floor. *)
Definition clamp (similarity : spec_float) : pynum :=
  if F64.ltb similarity F64.c020 then PyInt 0 else PyFloat similarity.

(** Lines 124-152: the body of the scoring loop at index [i], on the lists
    [questions] and [similarities] built so far. *)
Definition score_pair (teacher_embeddings student_embeddings : list embedding)
    (acc : list question_result * list pynum) (i : nat)
    : traced (exn + list question_result * list pynum) :=
  let '(questions, similarities) := acc in
  match nth_error teacher_embeddings i, nth_error student_embeddings i with
  | Some t, Some s =>
      tell (EvCosSim i) ;;
      let similarity := cos_sim t s in
      let similarity := clamp similarity in
      let similarities := (similarities ++ [similarity])%list in
      let percent_score := py_round2 (py_mul similarity (PyInt 100)) in
      let status := status_of percent_score in
      ret (inr ((questions ++
                   [{| question_number := Z.of_nat i + 1;
                       similarity_percent := percent_score;
                       status := status |}])%list,
                similarities))
  | _, _ => ret (inl (IndexError i))
  end.

(** Line 122: the loop over [range(min(...))]. *)
Fixpoint score_loop (range : list nat)
    (teacher_embeddings student_embeddings : list embedding)
    (acc : list question_result * list pynum)
    : traced (exn + list question_result * list pynum) :=
  match range with
  | [] => ret (inr acc)
  | i :: rest =>
      r <- score_pair teacher_embeddings student_embeddings acc i ;;
      match r with
      | inr acc' => score_loop rest teacher_embeddings student_embeddings acc'
      | inl e => ret (inl e)
      end
  end.

(** Lines 154-160: the overall performance of a student. *)
Definition performance_of (similarities : list pynum) : pynum :=
  let overall :=
    match similarities with
    | [] => PyInt 0
    | _ =>
        py_mul
          (py_truediv (py_sum similarities)
             (PyInt (Z.of_nat (List.length similarities))))
          (PyInt 100)
    end in
  py_round2 overall.

(** Lines 101-162: the body of the loop over the student files. *)
Definition analyze_student (teacher_answers : list string)
    (teacher_embeddings : list embedding) (student_pdf : upload)
    : traced (exn + student_result) :=
  student_text <- extract_text student_pdf ;;
  let student_answers := split_answers student_text in
  if (List.length student_answers =? 0)%nat then
    ret (inr {| pdf_name := filename student_pdf;
                questions := [];
                performance_score := PyInt 0 |})
  else
    tell (EvEncode student_answers) ;;
    let student_embeddings := encode student_answers in
    r <- score_loop
           (seq 0 (Nat.min (List.length teacher_answers)
                           (List.length student_answers)))
           teacher_embeddings student_embeddings ([], []) ;;
    match r with
    | inr (questions, similarities) =>
        ret (inr {| pdf_name := filename student_pdf;
                    questions := questions;
                    performance_score := performance_of similarities |})
    | inl e => ret (inl e)
    end.

(** Line 99: the loop over [student_pdfs], appending to [all_results]. *)
Fixpoint analyze_students (teacher_answers : list string)
    (teacher_embeddings : list embedding) (student_pdfs : list upload)
    (all_results : list student_result)
    : traced (exn + list student_result) :=
  match student_pdfs with
  | [] => ret (inr all_results)
  | student_pdf :: rest =>
      r <- analyze_student teacher_answers teacher_embeddings student_pdf ;;
      match r with
      | inr student_result =>
          analyze_students teacher_answers teacher_embeddings rest
            (all_results ++ [student_result])%list
      | inl e => ret (inl e)
      end
  end.

(** The route [POST /analyze] on the uploaded files of the request. *)
Definition analyze (request_files : files) : traced response :=
  match getfirst "teacher" request_files with
  | None =>
      ret {| http_status := 400; json := Error "Teacher key not uploaded" |}
  | Some teacher_pdf =>
      let student_pdfs := getlist "students" request_files in
      if (List.length student_pdfs =? 0)%nat then
        ret {| http_status := 400; json := Error "No student files uploaded" |}
      else
        teacher_text <- extract_text teacher_pdf ;;
        let teacher_answers := split_answers teacher_text in
        if (List.length teacher_answers =? 0)%nat then
          ret {| http_status := 400;
                 json := Error "Teacher answers could not be extracted" |}
        else
          tell (EvEncode teacher_answers) ;;
          let teacher_embeddings := encode teacher_answers in
          r <- analyze_students teacher_answers teacher_embeddings
                 student_pdfs [] ;;
          match r with
          | inr all_results =>
              ret {| http_status := 200; json := Success all_results |}
          | inl e =>
              tell (EvPrint "ERROR:") ;;
              ret {| http_status := 500; json := Failure e |}
          end
  end.

(** *** The route, as a function of the embeddings

    The raw cosine similarities of the aligned pairs, the entry of one
    pair, and the result of one student; the route is proved to compute
    them. *)

Definition raw_similarities (teacher_embeddings student_embeddings : list embedding)
    : list spec_float :=
  map (fun pair => cos_sim (fst pair) (snd pair))
    (combine teacher_embeddings student_embeddings).

Definition percent_of (similarity : spec_float) : pynum :=
  py_round2 (py_mul (clamp similarity) (PyInt 100)).

Definition question_of (i : nat) (similarity : spec_float) : question_result :=
  {| question_number := Z.of_nat i + 1;
     similarity_percent := percent_of similarity;
     status := status_of (percent_of similarity) |}.

Fixpoint questions_from (i : nat) (raws : list spec_float)
    : list question_result :=
  match raws with
  | [] => []
  | raw :: rest => question_of i raw :: questions_from (S i) rest
  end.

Definition answers_of (pdf_file : upload) : list string :=
  split_answers (value_of (extract_text pdf_file)).

Definition student_report (teacher_embeddings : list embedding)
    (student_pdf : upload) : student_result :=
  let raws :=
    raw_similarities teacher_embeddings (encode (answers_of student_pdf)) in
  {| pdf_name := filename student_pdf;
     questions := questions_from 0 raws;
     performance_score := performance_of (map clamp raws) |}.

Definition student_trace (teacher_embeddings : list embedding)
    (student_pdf : upload) : list event :=
  let answers := answers_of student_pdf in
  (trace_of (extract_text student_pdf) ++
   match answers with
   | [] => []
   | _ =>
       EvEncode answers ::
       map EvCosSim
         (seq 0 (List.length
                   (raw_similarities teacher_embeddings (encode answers))))
   end)%list.

End Route.

End App.

Import App.


(** ** The segmentation, as the specification words it *)

Fixpoint all_digits (s : string) : bool :=
  match s with
  | String c s' => is_digit c && all_digits s'
  | EmptyString => true
  end.

(** A delimiter: an optional [Q], one or more digits, a period. *)
Inductive delimiter : string -> Prop :=
  | delimiter_digits (ds : string) :
      ds <> EmptyString -> all_digits ds = true ->
      delimiter (ds ++ ".")
  | delimiter_Q (ds : string) :
      ds <> EmptyString -> all_digits ds = true ->
      delimiter (String "Q" (ds ++ ".")).

(** The text [s], which follows the character [prev], starts with the
    delimiter [d], and the delimiter starts at a word boundary. *)
Definition delimiter_at (prev : option ascii) (s d rest : string) : Prop :=
  s = d ++ rest /\ delimiter d /\ word_boundary prev s = true.

(** The last character of [d], or [prev] when [d] is empty. *)
Fixpoint last_char (prev : option ascii) (d : string) : option ascii :=
  match d with
  | String c d' => last_char (Some c) d'
  | EmptyString => prev
  end.

(** [splits prev s parts]: cutting [s] at each delimiter that starts at a
    word boundary, from left to right, and dropping the delimiters, leaves
    [parts]. *)
Inductive splits : option ascii -> string -> list string -> Prop :=
  | splits_end (prev : option ascii) :
      splits prev EmptyString [EmptyString]
  | splits_delimiter (prev : option ascii) (s d rest : string)
      (parts : list string) :
      delimiter_at prev s d rest ->
      splits (last_char prev d) rest parts ->
      splits prev s (EmptyString :: parts)
  | splits_char (prev : option ascii) (c : ascii) (s part : string)
      (parts : list string) :
      (forall d rest, ~ delimiter_at prev (String c s) d rest) ->
      splits (Some c) s (part :: parts) ->
      splits prev (String c s) (String c part :: parts).

(** The segmentation with the delimiter of the specification, which asks
    for no word boundary: [Q?\d+\.] wherever it occurs. *)
Definition pattern_as_specified (prev : option ascii) (s : string)
    : option nat :=
  optional_Q_digits_dot s.

Definition split_answers_as_specified (text : string) : list string :=
  filter (fun part => (20 <? String.length part)%nat)
    (map strip (re_split pattern_as_specified text)).

(** A segment is kept when its length exceeds 20. *)
Definition long_enough (part : string) : bool :=
  (20 <? String.length part)%nat.

Fixpoint all_space (s : string) : bool :=
  match s with
  | String c s' => is_space c && all_space s'
  | EmptyString => true
  end.

(** A text that neither starts nor ends with a whitespace. *)
Definition trimmed (s : string) : Prop :=
  match s with
  | String c _ =>
      is_space c = false /\
      exists c', last_char None s = Some c' /\ is_space c' = false
  | EmptyString => True
  end.

(** ** Exact values of floats, scaled to integers

    The value of a positive float [m * 2^e] with [- scale <= e] is compared
    through the integer [m * 2^(e + scale)]. *)

Definition scale : Z := 1200.
Definition sval (m e : Z) : Z := m * 2 ^ (e + scale).

(** [f] is a positive binary64 number, or the positive infinity, not below
    the float [mb * 2^eb]. *)
Definition at_least (mb : positive) (eb : Z) (f : spec_float) : Prop :=
  f = S754_infinity false \/
  exists m e, f = S754_finite false m e
              /\ bounded F64.prec F64.emax m e = true
              /\ sval (Zpos mb) eb <= sval (Zpos m) e.

(** The percentage is the int [0], or a float that is at least [20.0]. *)
Definition zero_or_at_least_20 (percent : pynum) : Prop :=
  percent = PyInt 0 \/
  exists f, percent = PyFloat f /\ at_least 5629499534213120 (-48) f.

(** ** An instance of the libraries

    A document holds one page whose text is its bytes, there is no OCR, a
    text is its own embedding, and the similarity of two texts is [1.0]
    when they are equal, [0.5] when they have the same length and [0.1]
    otherwise. *)

Module Demo.

Definition pdf_reader (doc : string) : option (list page_read) :=
  Some [PageText doc].
Definition image : Type := unit.
Definition convert_from_bytes (doc : string) : option (list image) := None.
Definition image_to_string (img : image) : option string := None.
Definition embedding : Type := string.
Definition encode (texts : list string) : list embedding := texts.
Definition cos_sim (a b : embedding) : spec_float :=
  if String.eqb a b then S754_finite false 4503599627370496 (-52)
  else if (String.length a =? String.length b)%nat
       then S754_finite false 4503599627370496 (-53)
       else S754_finite false 7205759403792794 (-56).

Definition extract_text :=
  extract_text pdf_reader image convert_from_bytes image_to_string.
Definition analyze :=
  analyze pdf_reader image convert_from_bytes image_to_string
    embedding encode cos_sim.

Definition teacher_pdf : upload :=
  {| filename := "key.pdf";
     content := "Q1. The mitochondria is the powerhouse of the cell. 2. Water boils at one hundred degrees at sea level." |}.
Definition student1_pdf : upload :=
  {| filename := "s1.pdf";
     content := "Q1. The mitochondria is the powerhouse of the cell. 2. Water turns to ice at zero degrees in January. 3. An answer to a question nobody asked." |}.
Definition student2_pdf : upload :=
  {| filename := "s2.pdf"; content := "1. too short" |}.
Definition student3_pdf : upload :=
  {| filename := "s3.pdf";
     content := "1. The mitochondria is not the powerhouse of anything at all, I think." |}.

Definition request_files : files :=
  [("teacher", teacher_pdf); ("students", student1_pdf);
   ("students", student2_pdf); ("students", student3_pdf)].

Definition teacher_answers : list string :=
  ["The mitochondria is the powerhouse of the cell.";
   "Water boils at one hundred degrees at sea level."].

(** The results of the three students. *)
Definition entry1 : question_result :=
  {| question_number := 1;
     similarity_percent := PyFloat (F64.of_Z 100);
     status := "Strong Understanding" |}.
Definition entry2 : question_result :=
  {| question_number := 2;
     similarity_percent := PyInt 0;
     status := "Not Related" |}.
Definition report1 : student_result :=
  {| pdf_name := "s1.pdf";
     questions := [entry1; entry2];
     performance_score := PyFloat (F64.of_Z 50) |}.
Definition report2 : student_result :=
  {| pdf_name := "s2.pdf"; questions := []; performance_score := PyInt 0 |}.
Definition report3 : student_result :=
  {| pdf_name := "s3.pdf";
     questions :=
       [{| question_number := 1;
           similarity_percent := PyInt 0;
           status := "Not Related" |}];
     performance_score := PyFloat (S754_zero false) |}.
Definition data : list student_result := [report1; report2; report3].

End Demo.


(** ** Definitions for the further properties of the code *)

(** The direct pass of [extract_text] on a document: the text read from
    its pages, and whether the reader or a page raised. *)
Definition direct_read (pdf_reader : string -> option (list page_read))
    (pdf_file : upload) : string * bool :=
  match pdf_reader (content pdf_file) with
  | Some pages => read_pages pages EmptyString
  | None => (EmptyString, true)
  end.

(** The texts, each followed by a line feed. *)
Fixpoint lines (texts : list string) : string :=
  match texts with
  | [] => EmptyString
  | t :: rest => t ++ newline ++ lines rest
  end.

(** The texts of the pages, the empty ones left out. *)
Fixpoint page_texts (pages : list page_read) : list string :=
  match pages with
  | [] => []
  | PageText extracted :: rest =>
      if String.eqb extracted EmptyString then page_texts rest
      else extracted :: page_texts rest
  | PageRaises :: rest => page_texts rest
  end.

(** The parts, with a delimiter between each two. *)
Fixpoint weave (parts delimiters : list string) : string :=
  match parts, delimiters with
  | part :: parts', d :: delimiters' => part ++ d ++ weave parts' delimiters'
  | part :: _, [] => part
  | [], _ => EmptyString
  end.

Definition substring_of (part text : string) : Prop :=
  exists before after, text = (before ++ part ++ after)%string.

Fixpoint no_digit (s : string) : bool :=
  match s with
  | String c s' => negb (is_digit c) && no_digit s'
  | EmptyString => true
  end.

(** The character before the position is no word character. *)
Definition not_after_word (prev : option ascii) : bool :=
  match prev with
  | Some c => negb (is_word c)
  | None => true
  end.

(** The texts given to [model.encode], call after call. *)
Definition encode_calls (trace : list event) : list (list string) :=
  flat_map (fun e => match e with EvEncode texts => [texts] | _ => [] end)
    trace.

Definition nonempty {A} (l : list A) : bool :=
  match l with
  | [] => false
  | _ :: _ => true
  end.

(** The files of a request with one teacher file and the student files. *)
Definition request_of (teacher_pdf : upload) (student_pdfs : list upload)
    : files :=
  ("teacher", teacher_pdf) :: map (fun s => ("students", s)) student_pdfs.

(** The floats [0.45], [0.75], [45.0] and [75.0]. *)
Definition f045 : spec_float := S754_finite false 8106479329266893 (-54).
Definition f075 : spec_float := S754_finite false 6755399441055744 (-53).
Definition f45 : spec_float := S754_finite false 6333186975989760 (-47).
Definition f75 : spec_float := S754_finite false 5277655813324800 (-46).

(** *** An instance with a scanned document

    The direct pass reads nothing, the OCR reads the bytes of the document
    as its one page. *)

Module Scan.

Definition pdf_reader (doc : string) : option (list page_read) :=
  Some [PageText EmptyString].
Definition image : Type := string.
Definition convert_from_bytes (doc : string) : option (list image) :=
  Some [doc].
Definition image_to_string (img : image) : option string := Some img.

Definition document : upload :=
  {| filename := "scan.pdf";
     content := "1. The mitochondria is the powerhouse of the cell." |}.

End Scan.

(** *** An instance where the second of three pages raises *)

Module Torn.

Definition pdf_reader (doc : string) : option (list page_read) :=
  Some [PageText doc; PageRaises; PageText doc].

End Torn.

(** *** An instance where neither the reader nor the OCR can open a
    document *)

Module Unreadable.

Definition pdf_reader (doc : string) : option (list page_read) := None.

Definition analyze :=
  App.analyze pdf_reader Demo.image Demo.convert_from_bytes
    Demo.image_to_string Demo.embedding Demo.encode Demo.cos_sim.

End Unreadable.

(** *** An instance with a model that loses the last vector *)

Module Lossy.

Definition encode (texts : list string) : list Demo.embedding :=
  removelast texts.

Definition analyze :=
  App.analyze Demo.pdf_reader Demo.image Demo.convert_from_bytes
    Demo.image_to_string Demo.embedding encode Demo.cos_sim.

End Lossy.


(** * Properties *)

(** ** Binary64 arithmetic: rounding never goes below a float under the
    exact value *)

Section Binary64.

Local Open Scope Z_scope.

Lemma digits2_bounds (p : positive) :
  2 ^ (Zpos (digits2_pos p) - 1) <= Zpos p < 2 ^ Zpos (digits2_pos p).
Proof.
  induction p as [p IH | p IH |]; cbn [digits2_pos].
  - rewrite Pos2Z.inj_succ, (Pos2Z.inj_xI p).
    replace (Z.succ (Zpos (digits2_pos p)) - 1) with (Z.succ (Zpos (digits2_pos p) - 1)) by lia.
    rewrite !Z.pow_succ_r by lia.
    destruct IH as [IH1 IH2]. revert IH1 IH2.
    generalize (2 ^ (Zpos (digits2_pos p) - 1)) (2 ^ Zpos (digits2_pos p)). lia.
  - rewrite Pos2Z.inj_succ, (Pos2Z.inj_xO p).
    replace (Z.succ (Zpos (digits2_pos p)) - 1) with (Z.succ (Zpos (digits2_pos p) - 1)) by lia.
    rewrite !Z.pow_succ_r by lia.
    destruct IH as [IH1 IH2]. revert IH1 IH2.
    generalize (2 ^ (Zpos (digits2_pos p) - 1)) (2 ^ Zpos (digits2_pos p)). lia.
  - cbn. lia.
Qed.

Lemma Zdigits2_bounds (m : Z) :
  0 < m -> 2 ^ (Zdigits2 m - 1) <= m < 2 ^ Zdigits2 m.
Proof.
  destruct m as [|p|p]; try lia. intros _. apply digits2_bounds.
Qed.

Lemma Zdigits2_pos (m : Z) : 0 < m -> 0 < Zdigits2 m.
Proof. destruct m; simpl; lia. Qed.

(** [m < 2^k] bounds the number of digits by [k], [2^(k-1) <= m] bounds it from below. *)
Lemma Zdigits2_le (m k : Z) : 0 < m -> 0 <= k -> m < 2 ^ k -> Zdigits2 m <= k.
Proof.
  intros Hm Hk Hlt. pose proof (Zdigits2_bounds m Hm) as [Hlo _].
  pose proof (Zdigits2_pos m Hm).
  destruct (Z_le_gt_dec (Zdigits2 m) k) as [|Hgt]; [assumption|exfalso].
  assert (2 ^ k <= 2 ^ (Zdigits2 m - 1)) by (apply Z.pow_le_mono_r; lia).
  lia.
Qed.

Lemma Zdigits2_ge (m k : Z) : 0 < m -> 2 ^ (k - 1) <= m -> k <= Zdigits2 m.
Proof.
  intros Hm Hle. pose proof (Zdigits2_bounds m Hm) as [_ Hhi].
  pose proof (Zdigits2_pos m Hm).
  destruct (Z_le_gt_dec k (Zdigits2 m)) as [|Hgt]; [assumption|exfalso].
  assert (2 ^ Zdigits2 m <= 2 ^ (k - 1)) by (apply Z.pow_le_mono_r; lia).
  lia.
Qed.

Lemma shr_1_m (mrs : shr_record) :
  0 <= shr_m mrs -> shr_m (shr_1 mrs) = shr_m mrs / 2.
Proof.
  destruct mrs as [m r s]; cbn [shr_m]; intros Hm.
  destruct m as [|[q|q|]|q]; cbn [shr_1 shr_m]; try lia; try reflexivity.
  - rewrite (Pos2Z.inj_xI q). apply Z.div_unique with (r := 1); lia.
  - rewrite (Pos2Z.inj_xO q). apply Z.div_unique with (r := 0); lia.
Qed.

Lemma iter_shr_1_m (p : positive) : forall mrs,
  0 <= shr_m mrs -> shr_m (iter_pos shr_1 p mrs) = shr_m mrs / 2 ^ Zpos p.
Proof.
  induction p as [p IH | p IH |]; intros mrs Hm; cbn [iter_pos].
  - assert (H1 : 0 <= shr_m (shr_1 mrs)) by (rewrite shr_1_m by assumption; apply Z.div_pos; lia).
    assert (H2 : 0 <= shr_m (iter_pos shr_1 p (shr_1 mrs))) by (rewrite IH by assumption; apply Z.div_pos; lia).
    rewrite IH, IH, shr_1_m by assumption.
    rewrite !Z.div_div by lia.
    f_equal. rewrite (Pos2Z.inj_xI p).
    replace (2 * Zpos p + 1) with (1 + Zpos p + Zpos p) by lia.
    rewrite !Z.pow_add_r by lia. lia.
  - assert (H2 : 0 <= shr_m (iter_pos shr_1 p mrs)) by (rewrite IH by assumption; apply Z.div_pos; lia).
    rewrite IH, IH by assumption.
    rewrite !Z.div_div by lia.
    f_equal. rewrite (Pos2Z.inj_xO p).
    replace (2 * Zpos p) with (Zpos p + Zpos p) by lia.
    rewrite !Z.pow_add_r by lia. lia.
  - rewrite shr_1_m by assumption. reflexivity.
Qed.

Lemma shr_spec (mrs : shr_record) (e n : Z) :
  0 <= shr_m mrs ->
  exists mrs', shr mrs e n = (mrs', e + Z.max n 0)
               /\ shr_m mrs' = shr_m mrs / 2 ^ Z.max n 0.
Proof.
  intros Hm. destruct n as [|p|p]; cbn [shr Z.max Z.compare].
  - exists mrs. rewrite Z.add_0_r, Z.div_1_r. auto.
  - exists (iter_pos shr_1 p mrs). split; [reflexivity | apply iter_shr_1_m; assumption].
  - exists mrs. cbn. rewrite Z.add_0_r, Z.div_1_r. auto.
Qed.

Lemma shr_m_of_loc (m : Z) (l : location) : shr_m (shr_record_of_loc m l) = m.
Proof. destruct l as [|[]]; reflexivity. Qed.

Lemma round_nearest_even_bounds (m : Z) (l : location) :
  m <= round_nearest_even m l <= m + 1.
Proof. destruct l as [|[]]; cbn; try destruct (Z.even m); lia. Qed.

Lemma fexp_eq (e : Z) : fexp F64.prec F64.emax e = Z.max (e - 53) (-1074).
Proof. reflexivity. Qed.

Lemma canonical_spec (m : positive) (e : Z) :
  canonical_mantissa F64.prec F64.emax m e = true <->
  e = Z.max (Zpos (digits2_pos m) + e - 53) (-1074).
Proof.
  unfold canonical_mantissa. rewrite fexp_eq, Z.eqb_eq. split; intros H; lia.
Qed.

Lemma pow2_pos (x : Z) : 0 <= x -> 0 < 2 ^ x.
Proof. intros; apply Z.pow_pos_nonneg; lia. Qed.

Lemma sval_exp (m e1 e2 : Z) :
  - scale <= e1 -> e1 <= e2 -> sval m e2 = m * 2 ^ (e2 - e1) * 2 ^ (e1 + scale).
Proof.
  intros H1 H2. unfold sval.
  replace (e2 + scale) with ((e2 - e1) + (e1 + scale)) by lia.
  rewrite Z.pow_add_r by lia. lia.
Qed.

Lemma sval_le_mono (m1 m2 e : Z) : - scale <= e -> m1 <= m2 -> sval m1 e <= sval m2 e.
Proof.
  intros He H. unfold sval. apply Z.mul_le_mono_nonneg_r; [|assumption].
  apply Z.lt_le_incl, pow2_pos. lia.
Qed.

Lemma binary_round_aux_lower (m e : Z) (l : location) (mb : positive) (eb : Z) :
  0 < m -> - scale <= e ->
  e <= fexp F64.prec F64.emax (Zdigits2 m + e) ->
  canonical_mantissa F64.prec F64.emax mb eb = true ->
  sval (Zpos mb) eb <= sval m e ->
  at_least mb eb (binary_round_aux F64.prec F64.emax false m e l).
Proof.
  intros Hm He Hn Hcb Hle.
  assert (HK : scale = 1200) by reflexivity.
  apply canonical_spec in Hcb.
  pose proof (digits2_bounds mb) as [Hb1 Hb2].
  pose proof (Zdigits2_bounds m Hm) as [Hd1 Hd2].
  unfold binary_round_aux, shr_fexp.
  rewrite fexp_eq in Hn. rewrite !fexp_eq.
  set (d := Zdigits2 m) in *. set (db := Zpos (digits2_pos mb)) in *.
  set (e1 := Z.max (d + e - 53) (-1074)) in *.
  destruct (shr_spec (shr_record_of_loc m l) e (e1 - e)) as (mrs1 & Hshr1 & Hm1).
  { rewrite shr_m_of_loc; lia. }
  rewrite Hshr1. rewrite shr_m_of_loc in Hm1.
  replace (Z.max (e1 - e) 0) with (e1 - e) in Hm1 by lia.
  set (m1 := shr_m mrs1) in *.
  set (n := e1 - e) in *.
  assert (Hn0 : 0 <= n) by (unfold n; lia).
  assert (Hpn : 0 < 2 ^ n) by (apply pow2_pos; lia).
  (* the truncated mantissa fits the precision *)
  assert (F1 : m1 < 2 ^ 53).
  { rewrite Hm1. apply Z.div_lt_upper_bound; [assumption|].
    rewrite <- Z.pow_add_r by lia.
    eapply Z.lt_le_trans; [exact Hd2|]. apply Z.pow_le_mono_r; lia. }
  (* it is normal unless the exponent is the least one *)
  assert (F3 : e1 = -1074 \/ 2 ^ 52 <= m1).
  { destruct (Z.eq_dec e1 (-1074)) as [|Hne]; [left; assumption|right].
    assert (Hnd : n = d - 53) by lia.
    rewrite Hm1. apply Z.div_le_lower_bound; [assumption|].
    rewrite <- Z.pow_add_r by lia.
    replace (n + 52) with (d - 1) by lia. exact Hd1. }
  (* the bound is below the truncation *)
  assert (F2 : sval (Zpos mb) eb <= sval m1 e1).
  { destruct (Z_le_gt_dec e1 eb) as [Hge|Hlt].
    - rewrite (sval_exp (Zpos mb) e1 eb) by lia.
      unfold sval at 1. apply Z.mul_le_mono_nonneg_r.
      { apply Z.lt_le_incl, pow2_pos; lia. }
      rewrite Hm1. apply Z.div_le_lower_bound; [assumption|].
      revert Hle. rewrite (sval_exp (Zpos mb) e eb) by lia.
      unfold sval. intros Hle.
      apply Z.mul_le_mono_pos_r in Hle; [|apply pow2_pos; lia].
      replace (eb - e) with (n + (eb - e1)) in Hle by lia.
      rewrite Z.pow_add_r in Hle by lia. lia.
    - destruct F3 as [F3|F3]; [lia|].
      assert (Hdb : db <= 53) by lia.
      assert (Hmb : Zpos mb < 2 ^ 53).
      { eapply Z.lt_le_trans; [exact Hb2|]. apply Z.pow_le_mono_r; lia. }
      rewrite (sval_exp m1 eb e1) by lia. unfold sval.
      apply Z.mul_le_mono_nonneg_r.
      { apply Z.lt_le_incl, pow2_pos; lia. }
      assert (2 * 1 <= 2 ^ (e1 - eb)).
      { change (2 * 1) with (2 ^ 1). apply Z.pow_le_mono_r; lia. }
      assert (2 ^ 52 * 2 <= m1 * 2 ^ (e1 - eb)) by (apply Z.mul_le_mono_nonneg; lia).
      change (2 ^ 53) with (2 ^ 52 * 2) in Hmb. lia. }
  assert (F4 : 1 <= m1).
  { destruct (Z_le_gt_dec 1 m1) as [|Hlt]; [assumption|exfalso].
    assert (sval m1 e1 <= sval 0 e1) by (apply sval_le_mono; lia).
    assert (0 < sval (Zpos mb) eb).
    { unfold sval. apply Z.mul_pos_pos; [lia|apply pow2_pos; lia]. }
    unfold sval in *. lia. }
  pose proof (round_nearest_even_bounds m1 (loc_of_shr_record mrs1)) as [Hr1 Hr2].
  set (m2 := round_nearest_even m1 (loc_of_shr_record mrs1)) in *.
  assert (F5 : sval (Zpos mb) eb <= sval m2 e1).
  { etransitivity; [exact F2|]. apply sval_le_mono; lia. }
  replace (e + Z.max n 0) with e1 by (unfold n; lia). rewrite fexp_eq.
  destruct (Z_lt_le_dec m2 (2 ^ 53)) as [Hsmall|Hbig].
  - (* no carry out of the rounding *)
    assert (Hd2' : Zdigits2 m2 <= 53) by (apply Zdigits2_le; lia).
    assert (Hd2'' : e1 = -1074 \/ Zdigits2 m2 = 53).
    { destruct F3 as [|F3]; [left; assumption|right].
      assert (53 <= Zdigits2 m2) by (apply Zdigits2_ge; [lia|]; change (53 - 1) with 52; lia).
      lia. }
    destruct (shr_spec (shr_record_of_loc m2 loc_Exact) e1
                (Z.max (Zdigits2 m2 + e1 - 53) (-1074) - e1)) as (mrs2 & Hshr2 & Hm2).
    { cbn [shr_record_of_loc shr_m]. lia. }
    rewrite Hshr2. cbn [shr_record_of_loc shr_m] in Hm2.
    replace (Z.max (Z.max (Zdigits2 m2 + e1 - 53) (-1074) - e1) 0) with 0 in * by lia.
    rewrite Z.div_1_r in Hm2. rewrite Hm2, Z.add_0_r.
    destruct m2 as [|p2|p2]; try lia.
    destruct (e1 <=? F64.emax - F64.prec) eqn:Hfit; [right|left; reflexivity].
    exists p2, e1. repeat split; [|assumption].
    unfold bounded. rewrite Hfit, andb_true_r. apply canonical_spec.
    cbn [Zdigits2] in Hd2', Hd2''. lia.
  - (* the rounding carries into the next binade *)
    assert (Hm2 : m2 = 9007199254740992) by (change (2 ^ 53) with 9007199254740992 in *; lia).
    rewrite Hm2 in *. cbn [Zdigits2 digits2_pos Pos.succ].
    replace (Z.max (54 + e1 - 53) (-1074) - e1) with 1 by lia.
    cbn [shr shr_record_of_loc iter_pos shr_1 shr_m].
    destruct (e1 + 1 <=? F64.emax - F64.prec) eqn:Hfit; [right|left; reflexivity].
    exists 4503599627370496%positive, (e1 + 1). repeat split.
    + unfold bounded. rewrite Hfit, andb_true_r. apply canonical_spec.
      cbn [digits2_pos Pos.succ]. lia.
    + etransitivity; [exact F5|]. rewrite (sval_exp _ e1 (e1 + 1)) by lia.
      replace (e1 + 1 - e1) with 1 by lia. unfold sval. cbn [Z.pow]. lia.
Qed.

Lemma canonical_exp_lt (m1 m2 : positive) (e1 e2 : Z) :
  canonical_mantissa F64.prec F64.emax m1 e1 = true ->
  canonical_mantissa F64.prec F64.emax m2 e2 = true ->
  e1 < e2 -> sval (Zpos m1) e1 < sval (Zpos m2) e2.
Proof.
  intros H1 H2 Hlt. apply canonical_spec in H1, H2.
  assert (HK : scale = 1200) by reflexivity.
  pose proof (digits2_bounds m1) as [_ Hhi].
  pose proof (digits2_bounds m2) as [Hlo _].
  assert (Hd1 : Zpos (digits2_pos m1) <= 53) by lia.
  assert (Hd2 : Zpos (digits2_pos m2) = 53) by lia.
  rewrite Hd2 in Hlo. change (53 - 1) with 52 in Hlo.
  assert (Hm1 : Zpos m1 < 2 ^ 53).
  { eapply Z.lt_le_trans; [exact Hhi|]. apply Z.pow_le_mono_r; lia. }
  rewrite (sval_exp (Zpos m2) e1 e2) by lia. unfold sval.
  apply Z.mul_lt_mono_pos_r; [apply pow2_pos; lia|].
  assert (2 * 1 <= 2 ^ (e2 - e1)).
  { change (2 * 1) with (2 ^ 1). apply Z.pow_le_mono_r; lia. }
  assert (2 ^ 52 * 2 <= Zpos m2 * 2 ^ (e2 - e1)) by (apply Z.mul_le_mono_nonneg; lia).
  change (2 ^ 53) with (2 ^ 52 * 2) in Hm1. lia.
Qed.

Lemma SFcompare_canonical (m1 m2 : positive) (e1 e2 : Z) :
  canonical_mantissa F64.prec F64.emax m1 e1 = true ->
  canonical_mantissa F64.prec F64.emax m2 e2 = true ->
  SFcompare (S754_finite false m1 e1) (S754_finite false m2 e2)
  = Some (sval (Zpos m1) e1 ?= sval (Zpos m2) e2).
Proof.
  intros H1 H2. cbn [SFcompare]. f_equal.
  destruct (Z.compare_spec e1 e2) as [Heq|Hlt|Hgt].
  - subst e2. unfold sval.
    assert (HK : scale = 1200) by reflexivity.
    apply canonical_spec in H1.
    rewrite <- Zmult_compare_compat_r by (apply Z.lt_gt, pow2_pos; lia).
    reflexivity.
  - symmetry. apply Z.compare_lt_iff. apply canonical_exp_lt; assumption.
  - symmetry. apply Z.compare_gt_iff. apply canonical_exp_lt; assumption.
Qed.

Lemma bounded_canonical (m : positive) (e : Z) :
  bounded F64.prec F64.emax m e = true -> canonical_mantissa F64.prec F64.emax m e = true.
Proof. unfold bounded. intros H. apply andb_true_iff in H. tauto. Qed.

Lemma at_least_leb (mb : positive) (eb : Z) (f : spec_float) :
  canonical_mantissa F64.prec F64.emax mb eb = true ->
  at_least mb eb f -> SFleb (S754_finite false mb eb) f = true.
Proof.
  intros Hb [->|(m & e & -> & Hbd & Hle)]; [reflexivity|].
  unfold SFleb. rewrite SFcompare_canonical by auto using bounded_canonical.
  destruct (Z.compare_spec (sval (Zpos mb) eb) (sval (Zpos m) e)); auto; lia.
Qed.

Lemma at_least_positive (mb : positive) (eb : Z) (f : spec_float) :
  at_least mb eb f -> SFltb (S754_zero false) f = true.
Proof. intros [->|(m & e & -> & _)]; reflexivity. Qed.

Lemma not_lt_c020 (s : spec_float) :
  valid_binary F64.prec F64.emax s = true -> s <> S754_nan ->
  SFltb s F64.c020 = false -> at_least 7205759403792794 (-55) s.
Proof.
  intros Hv Hnan Hlt. destruct s as [[]|[]| |[] m e]; try discriminate; try congruence.
  - left; reflexivity.
  - right. exists m, e. split; [reflexivity|]. split; [exact Hv|].
    unfold SFltb, F64.c020 in Hlt.
    rewrite SFcompare_canonical in Hlt by (auto using bounded_canonical).
    destruct (Z.compare_spec (sval (Zpos m) e) (sval 7205759403792794 (-55)));
      try discriminate; lia.
Qed.

Lemma mul100_lower (s : spec_float) :
  at_least 7205759403792794 (-55) s ->
  at_least 5629499534213120 (-48) (F64.mul s (F64.of_Z 100)).
Proof.
  change (F64.of_Z 100) with (S754_finite false 7036874417766400 (-46)).
  intros [->|(m & e & -> & Hbd & Hle)]; [left; reflexivity|].
  assert (HK : scale = 1200) by reflexivity.
  pose proof (bounded_canonical _ _ Hbd) as Hc. apply canonical_spec in Hc.
  pose proof (digits2_bounds m) as [Hlo _].
  unfold F64.mul. cbn [SFmul xorb]. apply binary_round_aux_lower.
  - lia.
  - lia.
  - rewrite fexp_eq.
    assert (Zpos (digits2_pos m) + 52 <= Zdigits2 (Zpos (m * 7036874417766400))).
    { apply Zdigits2_ge; [lia|].
      replace (Zpos (digits2_pos m) + 52 - 1) with ((Zpos (digits2_pos m) - 1) + 52) by lia.
      rewrite Z.pow_add_r by lia. rewrite Pos2Z.inj_mul.
      apply Z.mul_le_mono_nonneg; try lia; apply Z.lt_le_incl, pow2_pos; lia. }
    lia.
  - reflexivity.
  - revert Hle. unfold sval. rewrite Pos2Z.inj_mul.
    replace (e + scale) with (46 + (e + -46 + scale)) by lia.
    replace (-48 + scale) with (7 + (-55 + scale)) by lia.
    rewrite (Z.pow_add_r 2 46), (Z.pow_add_r 2 7) by lia.
    change (2 ^ 46) with 70368744177664. change (2 ^ 7) with 128.
    generalize (pow2_pos (-55 + scale) ltac:(lia)) (pow2_pos (e + -46 + scale) ltac:(lia)).
    generalize (2 ^ (-55 + scale)) (2 ^ (e + -46 + scale)). intros A P HA HP Hle. nia.
Qed.

Lemma div_half_even_ge (a b : Z) : a / b <= F64.div_half_even a b.
Proof.
  unfold F64.div_half_even. destruct (2 * (a mod b) ?= b); [destruct (Z.even (a / b))| |]; lia.
Qed.

Lemma sval_20 : sval 5629499534213120 (-48) = 20 * 2 ^ scale.
Proof.
  unfold sval. replace scale with (48 + (-48 + scale)) at 2 by reflexivity.
  rewrite (Z.pow_add_r 2 48) by (unfold scale; lia).
  change (2 ^ 48) with 281474976710656. lia.
Qed.

Lemma centis_lower (m : positive) (e : Z) :
  bounded F64.prec F64.emax m e = true ->
  sval 5629499534213120 (-48) <= sval (Zpos m) e ->
  2000 <= F64.centis m e.
Proof.
  intros Hbd Hle. rewrite sval_20 in Hle.
  assert (HK : scale = 1200) by reflexivity.
  pose proof (bounded_canonical _ _ Hbd) as Hc. apply canonical_spec in Hc.
  assert (HpK : 0 < 2 ^ scale) by (apply pow2_pos; lia).
  unfold sval in Hle. destruct e as [|p|p]; cbn [F64.centis].
  - rewrite Z.add_0_l in Hle. apply Z.mul_le_mono_pos_r in Hle; [|assumption].
    cbn [Z.pow]. lia.
  - rewrite Z.pow_add_r, Z.mul_assoc in Hle by lia.
    apply Z.mul_le_mono_pos_r in Hle; [|assumption]. lia.
  - etransitivity; [|apply div_half_even_ge].
    assert (Hp : 0 < 2 ^ Zpos p) by (apply pow2_pos; lia).
    apply Z.div_le_lower_bound; [assumption|].
    replace scale with (Zpos p + (Zneg p + scale)) in Hle at 1 by lia.
    rewrite Z.pow_add_r, Z.mul_assoc in Hle by lia.
    apply Z.mul_le_mono_pos_r in Hle; [|apply pow2_pos; lia]. lia.
Qed.

Lemma div100_lower (n : positive) :
  2000 <= Zpos n ->
  at_least 5629499534213120 (-48) (F64.div (S754_finite false n 0) (S754_finite false 100 0)).
Proof.
  intros Hn.
  assert (HK : scale = 1200) by reflexivity.
  pose proof (digits2_bounds n) as [Hlo Hhi].
  unfold F64.div, SFdiv, SFdiv_core_binary.
  cbn [Zdigits2 digits2_pos Pos.succ xorb].
  rewrite fexp_eq, !Z.add_0_r, Z.sub_0_r.
  set (d1 := Zpos (digits2_pos n)) in *.
  assert (Hd1 : 11 <= d1).
  { apply Zdigits2_ge with (m := Zpos n); [lia|]. cbn [Z.pow Z.sub]. cbn. lia. }
  set (e' := Z.min (Z.max (d1 - 7 - 53) (-1074)) 0).
  set (s := 0 - e').
  assert (Hs : 0 <= s /\ e' = - s /\ 60 <= d1 + s) by (unfold s, e'; lia).
  destruct Hs as (Hs0 & He' & Hds).
  set (m' := match s with Zpos _ => Z.shiftl (Zpos n) s | 0 => Zpos n | Zneg _ => 0 end).
  assert (Hm' : m' = Zpos n * 2 ^ s).
  { unfold m'. destruct s as [|p|p]; [cbn; lia | apply Z.shiftl_mul_pow2; lia | lia]. }
  assert (Hps : 0 < 2 ^ s) by (apply pow2_pos; lia).
  pose proof (Z_div_mod m' 100 ltac:(lia)) as Hdm.
  destruct (Z.div_eucl m' 100) as [q r]. destruct Hdm as [Hq Hr].
  assert (Hq20 : 20 * 2 ^ s <= q) by nia.
  assert (Hq52 : 2 ^ 52 <= q).
  { assert (2 ^ 59 <= 2 ^ (d1 - 1 + s)) by (apply Z.pow_le_mono_r; lia).
    rewrite Z.pow_add_r in H by lia.
    change (2 ^ 59) with (128 * 2 ^ 52) in H.
    generalize dependent (2 ^ 52). generalize dependent (2 ^ (d1 - 1)). intros. nia. }
  apply binary_round_aux_lower.
  - lia.
  - lia.
  - rewrite fexp_eq.
    assert (53 <= Zdigits2 q) by (apply Zdigits2_ge; [lia|]; exact Hq52). lia.
  - reflexivity.
  - rewrite sval_20. unfold sval. rewrite He'.
    replace scale with (s + (- s + scale)) at 1 by lia.
    rewrite Z.pow_add_r, Z.mul_assoc by lia.
    apply Z.mul_le_mono_nonneg_r; [apply Z.lt_le_incl, pow2_pos; lia | assumption].
Qed.

Lemma round2_lower (f : spec_float) :
  at_least 5629499534213120 (-48) f -> at_least 5629499534213120 (-48) (F64.round2 f).
Proof.
  intros [->|(m & e & -> & Hbd & Hle)]; [left; reflexivity|].
  cbn [F64.round2]. pose proof (centis_lower m e Hbd Hle) as Hc.
  destruct (F64.centis m e) as [|n|n]; try lia.
  apply div100_lower. assumption.
Qed.

Lemma at_least_not_ltb (mb : positive) (eb : Z) (f : spec_float) :
  canonical_mantissa F64.prec F64.emax mb eb = true ->
  at_least mb eb f -> SFltb f (S754_finite false mb eb) = false.
Proof.
  intros Hb [->|(m & e & -> & Hbd & Hle)]; [reflexivity|].
  unfold SFltb. rewrite SFcompare_canonical by auto using bounded_canonical.
  destruct (Z.compare_spec (sval (Zpos m) e) (sval (Zpos mb) eb)); auto; lia.
Qed.

(** Between two binary64 numbers, [not (x <= y)] gives [y < x]. *)
Lemma not_leb_ltb (m1 m2 : positive) (e1 e2 : Z) :
  bounded F64.prec F64.emax m1 e1 = true ->
  bounded F64.prec F64.emax m2 e2 = true ->
  SFleb (S754_finite false m1 e1) (S754_finite false m2 e2) = false ->
  SFltb (S754_finite false m2 e2) (S754_finite false m1 e1) = true.
Proof.
  intros H1 H2. unfold SFleb, SFltb.
  rewrite !SFcompare_canonical by auto using bounded_canonical.
  rewrite (Z.compare_antisym (sval (Zpos m1) e1)).
  destruct (sval (Zpos m1) e1 ?= sval (Zpos m2) e2); cbn; congruence.
Qed.

(** The percentage of a pair: the int [0] under the noise floor, a float
    that is at least [20.0] over it. *)
Lemma percent_of_cases (raw : spec_float) :
  F64.valid raw = true -> raw <> S754_nan ->
  zero_or_at_least_20 (percent_of raw).
Proof.
  intros Hv Hnan. unfold percent_of, clamp.
  destruct (F64.ltb raw F64.c020) eqn:Hlt; [left; reflexivity|right].
  eexists. split; [reflexivity|].
  apply round2_lower, mul100_lower, not_lt_c020; assumption.
Qed.

Lemma status_of_not_related (percent : pynum) :
  zero_or_at_least_20 percent ->
  (status_of percent = "Not Related" <-> percent = PyInt 0).
Proof.
  intros [->|(f & -> & Hf)]; [split; reflexivity|].
  split; [|discriminate]. unfold status_of.
  replace (py_lt (PyInt 0) (PyFloat f)) with true
    by (symmetry; exact (at_least_positive _ _ _ Hf)).
  destruct (py_le (PyInt 75) (PyFloat f)); [discriminate|].
  destruct (py_le (PyInt 45) (PyFloat f)); discriminate.
Qed.

Lemma status_of_weak (percent : pynum) :
  zero_or_at_least_20 percent ->
  status_of percent = "Weak Understanding" ->
  py_le (PyInt 20) percent = true /\ py_lt percent (PyInt 45) = true.
Proof.
  intros [->|(f & -> & Hf)]; [discriminate|]. unfold status_of.
  destruct (py_le (PyInt 75) (PyFloat f)); [discriminate|].
  destruct (py_le (PyInt 45) (PyFloat f)) eqn:H45; [discriminate|].
  intros _. split.
  - change (py_le (PyInt 20) (PyFloat f))
      with (SFleb (S754_finite false 5629499534213120 (-48)) f).
    apply at_least_leb; [reflexivity | exact Hf].
  - change (py_lt (PyFloat f) (PyInt 45))
      with (SFltb f (S754_finite false 6333186975989760 (-47))).
    change (py_le (PyInt 45) (PyFloat f))
      with (SFleb (S754_finite false 6333186975989760 (-47)) f) in H45.
    destruct Hf as [->|(m & e & -> & Hbd & Hle)]; [discriminate|].
    apply not_leb_ltb; [reflexivity | assumption | exact H45].
Qed.

Lemma no_percent_between_0_and_20 (percent : pynum) :
  zero_or_at_least_20 percent ->
  ~ (py_lt (PyInt 0) percent = true /\ py_lt percent (PyInt 20) = true).
Proof.
  intros [->|(f & -> & Hf)] [H0 H20]; [discriminate|].
  pose proof (at_least_not_ltb 5629499534213120 (-48) f eq_refl Hf) as H.
  change (py_lt (PyFloat f) (PyInt 20))
    with (SFltb f (S754_finite false 5629499534213120 (-48))) in H20.
  congruence.
Qed.

(** *** Further bounds: any integer percentage, and the float of an int *)

Lemma sval_mul100 (m : positive) (e : Z) :
  - scale <= e + -46 ->
  sval (Zpos (m * 7036874417766400)) (e + -46) = 100 * sval (Zpos m) e.
Proof.
  intros He. unfold sval. rewrite Pos2Z.inj_mul.
  replace (e + scale) with (46 + (e + -46 + scale)) by lia.
  rewrite (Z.pow_add_r 2 46) by lia.
  change (2 ^ 46) with 70368744177664. lia.
Qed.

Lemma mul100_lower_gen (mc mb : positive) (ec eb : Z) (s : spec_float) :
  canonical_mantissa F64.prec F64.emax mb eb = true ->
  sval (Zpos mb) eb <= 100 * sval (Zpos mc) ec ->
  at_least mc ec s ->
  at_least mb eb (F64.mul s (F64.of_Z 100)).
Proof.
  change (F64.of_Z 100) with (S754_finite false 7036874417766400 (-46)).
  intros Hb Hbc [->|(m & e & -> & Hbd & Hle)]; [left; reflexivity|].
  assert (HK : scale = 1200) by reflexivity.
  pose proof (bounded_canonical _ _ Hbd) as Hc. apply canonical_spec in Hc.
  pose proof (digits2_bounds m) as [Hlo _].
  unfold F64.mul. cbn [SFmul xorb]. apply binary_round_aux_lower.
  - lia.
  - lia.
  - rewrite fexp_eq.
    assert (Zpos (digits2_pos m) + 52 <= Zdigits2 (Zpos (m * 7036874417766400))).
    { apply Zdigits2_ge; [lia|].
      replace (Zpos (digits2_pos m) + 52 - 1) with ((Zpos (digits2_pos m) - 1) + 52) by lia.
      rewrite Z.pow_add_r by lia. rewrite Pos2Z.inj_mul.
      apply Z.mul_le_mono_nonneg; try lia; apply Z.lt_le_incl, pow2_pos; lia. }
    lia.
  - exact Hb.
  - rewrite sval_mul100 by lia. lia.
Qed.

Lemma centis_lower_gen (N : Z) (m : positive) (e : Z) :
  0 <= N ->
  bounded F64.prec F64.emax m e = true ->
  N * 2 ^ scale <= sval (Zpos m) e ->
  100 * N <= F64.centis m e.
Proof.
  intros HN Hbd Hle.
  assert (HK : scale = 1200) by reflexivity.
  pose proof (bounded_canonical _ _ Hbd) as Hc. apply canonical_spec in Hc.
  assert (HpK : 0 < 2 ^ scale) by (apply pow2_pos; lia).
  unfold sval in Hle. destruct e as [|p|p]; cbn [F64.centis].
  - rewrite Z.add_0_l in Hle. apply Z.mul_le_mono_pos_r in Hle; [|assumption].
    cbn [Z.pow]. lia.
  - rewrite Z.pow_add_r, Z.mul_assoc in Hle by lia.
    apply Z.mul_le_mono_pos_r in Hle; [|assumption]. lia.
  - etransitivity; [|apply div_half_even_ge].
    assert (Hp : 0 < 2 ^ Zpos p) by (apply pow2_pos; lia).
    apply Z.div_le_lower_bound; [assumption|].
    replace scale with (Zpos p + (Zneg p + scale)) in Hle at 1 by lia.
    rewrite Z.pow_add_r, Z.mul_assoc in Hle by lia.
    apply Z.mul_le_mono_pos_r in Hle; [|apply pow2_pos; lia]. lia.
Qed.

Lemma div100_lower_gen (N : Z) (mb : positive) (eb : Z) (n : positive) :
  0 < N ->
  canonical_mantissa F64.prec F64.emax mb eb = true ->
  sval (Zpos mb) eb <= N * 2 ^ scale ->
  100 * N <= Zpos n ->
  at_least mb eb (F64.div (S754_finite false n 0) (S754_finite false 100 0)).
Proof.
  intros HN Hb HbN Hn.
  assert (HK : scale = 1200) by reflexivity.
  pose proof (digits2_bounds n) as [Hlo Hhi].
  unfold F64.div, SFdiv, SFdiv_core_binary.
  cbn [Zdigits2 digits2_pos Pos.succ xorb].
  rewrite fexp_eq, !Z.add_0_r, Z.sub_0_r.
  set (d1 := Zpos (digits2_pos n)) in *.
  set (e' := Z.min (Z.max (d1 - 7 - 53) (-1074)) 0).
  set (s := 0 - e').
  assert (Hs : 0 <= s /\ e' = - s /\ 60 <= d1 + s) by (unfold s, e'; lia).
  destruct Hs as (Hs0 & He' & Hds).
  set (m' := match s with Zpos _ => Z.shiftl (Zpos n) s | 0 => Zpos n | Zneg _ => 0 end).
  assert (Hm' : m' = Zpos n * 2 ^ s).
  { unfold m'. destruct s as [|p|p]; [cbn; lia | apply Z.shiftl_mul_pow2; lia | lia]. }
  assert (Hps : 0 < 2 ^ s) by (apply pow2_pos; lia).
  pose proof (Z_div_mod m' 100 ltac:(lia)) as Hdm.
  destruct (Z.div_eucl m' 100) as [q r]. destruct Hdm as [Hq Hr].
  assert (HqN : N * 2 ^ s <= q) by nia.
  assert (Hq52 : 2 ^ 52 <= q).
  { assert (2 ^ 59 <= 2 ^ (d1 - 1 + s)) by (apply Z.pow_le_mono_r; lia).
    rewrite Z.pow_add_r in H by lia.
    change (2 ^ 59) with (128 * 2 ^ 52) in H.
    generalize dependent (2 ^ 52). generalize dependent (2 ^ (d1 - 1)). intros. nia. }
  apply binary_round_aux_lower.
  - lia.
  - lia.
  - rewrite fexp_eq.
    assert (53 <= Zdigits2 q) by (apply Zdigits2_ge; [lia|]; exact Hq52). lia.
  - exact Hb.
  - etransitivity; [exact HbN|]. unfold sval. rewrite He'.
    replace scale with (s + (- s + scale)) at 1 by lia.
    rewrite Z.pow_add_r, Z.mul_assoc by lia.
    apply Z.mul_le_mono_nonneg_r; [apply Z.lt_le_incl, pow2_pos; lia | assumption].
Qed.

Lemma round2_lower_gen (N : Z) (mb : positive) (eb : Z) (f : spec_float) :
  0 < N ->
  canonical_mantissa F64.prec F64.emax mb eb = true ->
  sval (Zpos mb) eb = N * 2 ^ scale ->
  at_least mb eb f -> at_least mb eb (F64.round2 f).
Proof.
  intros HN Hb HbN [->|(m & e & -> & Hbd & Hle)]; [left; reflexivity|].
  cbn [F64.round2].
  assert (Hc : 100 * N <= F64.centis m e).
  { apply centis_lower_gen; [lia | assumption | rewrite <- HbN; exact Hle]. }
  destruct (F64.centis m e) as [|n|n]; try lia.
  apply div100_lower_gen with (N := N);
    [lia | assumption | rewrite HbN; apply Z.le_refl | lia].
Qed.

Lemma leb_at_least (mc : positive) (ec : Z) (s : spec_float) :
  canonical_mantissa F64.prec F64.emax mc ec = true ->
  F64.valid s = true ->
  SFleb (S754_finite false mc ec) s = true -> at_least mc ec s.
Proof.
  intros Hc Hv Hle. destruct s as [[]|[]| |[] m e]; try discriminate.
  - left; reflexivity.
  - right. exists m, e. split; [reflexivity|]. split; [exact Hv|].
    unfold SFleb in Hle.
    rewrite SFcompare_canonical in Hle by (auto using bounded_canonical).
    destruct (Z.compare_spec (sval (Zpos mc) ec) (sval (Zpos m) e));
      try discriminate; lia.
Qed.

Lemma at_least_weaken (mc mb : positive) (ec eb : Z) (s : spec_float) :
  sval (Zpos mb) eb <= sval (Zpos mc) ec ->
  at_least mc ec s -> at_least mb eb s.
Proof.
  intros Hle [->|(m & e & -> & Hbd & H)]; [left; reflexivity|right].
  exists m, e. repeat split; [assumption | lia].
Qed.

(** A similarity of at least [0.45] is over the noise floor and its
    percentage is at least [45.0]; one of at least [0.75] has a percentage
    of at least [75.0]. *)
Lemma percent_of_at_least (raw : spec_float) :
  F64.valid raw = true ->
  (F64.leb f045 raw = true ->
   exists f, percent_of raw = PyFloat f
             /\ at_least 6333186975989760 (-47) f)
  /\ (F64.leb f075 raw = true ->
      exists f, percent_of raw = PyFloat f
                /\ at_least 5277655813324800 (-46) f).
Proof.
  intros Hv.
  assert (Hgen : forall (mc mb : positive) (ec eb N : Z),
            canonical_mantissa F64.prec F64.emax mc ec = true ->
            canonical_mantissa F64.prec F64.emax mb eb = true ->
            0 < N -> sval (Zpos mb) eb = N * 2 ^ scale ->
            sval (Zpos mb) eb <= 100 * sval (Zpos mc) ec ->
            sval 7205759403792794 (-55) <= sval (Zpos mc) ec ->
            SFleb (S754_finite false mc ec) raw = true ->
            exists f, percent_of raw = PyFloat f /\ at_least mb eb f).
  { intros mc mb ec eb N Hc Hb HN HbN Hbc H020 Hle.
    pose proof (leb_at_least _ _ _ Hc Hv Hle) as Hraw.
    unfold percent_of, clamp, F64.ltb, F64.c020.
    rewrite (at_least_not_ltb 7205759403792794 (-55) raw eq_refl
               (at_least_weaken _ _ _ _ _ H020 Hraw)).
    eexists. split; [reflexivity|].
    apply (round2_lower_gen N); try assumption.
    now apply mul100_lower_gen with (mc := mc) (ec := ec). }
  split; intros Hle.
  - apply (Hgen 8106479329266893%positive 6333186975989760%positive
             (-54) (-47) 45); try reflexivity; try exact Hle;
      apply Z.leb_le; vm_compute; reflexivity.
  - apply (Hgen 6755399441055744%positive 5277655813324800%positive
             (-53) (-46) 75); try reflexivity; try exact Hle;
      apply Z.leb_le; vm_compute; reflexivity.
Qed.

(** The label of a similarity of at least [0.45], and of at least
    [0.75]. *)
Lemma status_of_high (raw : spec_float) :
  F64.valid raw = true ->
  F64.leb f045 raw = true ->
  (status_of (percent_of raw) = "Partial Understanding"
   \/ status_of (percent_of raw) = "Strong Understanding")
  /\ (F64.leb f075 raw = true ->
      status_of (percent_of raw) = "Strong Understanding").
Proof.
  intros Hv H45. destruct (percent_of_at_least raw Hv) as [P45 P75]. split.
  - destruct (P45 H45) as (f & -> & Hf).
    pose proof (at_least_leb 6333186975989760 (-47) f eq_refl Hf) as Hle.
    change (SFleb (S754_finite false 6333186975989760 (-47)) f)
      with (py_le (PyInt 45) (PyFloat f)) in Hle.
    unfold status_of. rewrite Hle.
    destruct (py_le (PyInt 75) (PyFloat f)); auto.
  - intros H75. destruct (P75 H75) as (f & -> & Hf).
    pose proof (at_least_leb 5277655813324800 (-46) f eq_refl Hf) as Hle.
    change (SFleb (S754_finite false 5277655813324800 (-46)) f)
      with (py_le (PyInt 75) (PyFloat f)) in Hle.
    unfold status_of. now rewrite Hle.
Qed.

Lemma shl_align_value (p : positive) :
  let '(mz, ez) :=
    shl_align p 0 (fexp F64.prec F64.emax (Zpos (digits2_pos p) + 0)) in
  - 52 <= ez /\ ez <= fexp F64.prec F64.emax (Zpos (digits2_pos mz) + ez)
  /\ 2 ^ scale <= sval (Zpos mz) ez.
Proof.
  assert (HK : scale = 1200) by reflexivity.
  pose proof (digits2_bounds p) as [Hlo Hhi].
  rewrite !fexp_eq, Z.add_0_r. unfold shl_align.
  set (d := Zpos (digits2_pos p)) in *.
  destruct (Z.max (d - 53) (-1074) - 0) as [|q|q] eqn:Hq.
  - rewrite fexp_eq. fold d. split; [lia|]. split; [lia|].
    unfold sval. rewrite Z.add_0_l.
    assert (0 < 2 ^ scale) by (apply pow2_pos; lia). nia.
  - rewrite fexp_eq. fold d. split; [lia|]. split; [lia|].
    unfold sval. rewrite Z.add_0_l.
    assert (0 < 2 ^ scale) by (apply pow2_pos; lia). nia.
  - assert (Hd : d - 53 = Zneg q) by lia.
    change (Pos.iter xO p q) with (shift_pos q p).
    assert (Hm : Zpos (shift_pos q p) = Zpos p * 2 ^ Zpos q).
    { rewrite shift_pos_correct. change (Z.pow_pos 2 q) with (2 ^ Zpos q). lia. }
    assert (Hq0 : Zpos q = 53 - d) by lia.
    assert (Hpq : 0 < 2 ^ Zpos q) by (apply pow2_pos; lia).
    assert (Hdig : Zdigits2 (Zpos (shift_pos q p)) = 53).
    { apply Z.le_antisymm.
      - apply Zdigits2_le; [lia | lia|]. rewrite Hm.
        replace 53 with (d + Zpos q) by lia. rewrite Z.pow_add_r by lia.
        apply Z.mul_lt_mono_pos_r; assumption.
      - apply Zdigits2_ge; [lia|]. rewrite Hm.
        replace (53 - 1) with ((d - 1) + Zpos q) by lia.
        rewrite Z.pow_add_r by lia.
        apply Z.mul_le_mono_nonneg_r; lia. }
    cbn [Zdigits2] in Hdig. rewrite fexp_eq, Hdig.
    split; [lia|]. split; [lia|].
    unfold sval. rewrite Hm.
    replace (Z.max (d - 53) (-1074)) with (Zneg q) by lia.
    replace scale with (Zpos q + (Zneg q + scale)) at 1 by lia.
    rewrite Z.pow_add_r by lia.
    assert (0 < 2 ^ (Zneg q + scale)) by (apply pow2_pos; lia). nia.
Qed.

(** The float of a positive int is a positive number, or the infinity:
    it is neither a zero nor a nan. *)
Lemma of_Z_positive (p : positive) :
  at_least 1 (-1074) (F64.of_Z (Zpos p)).
Proof.
  assert (HK : scale = 1200) by reflexivity.
  unfold F64.of_Z, binary_normalize, binary_round.
  pose proof (shl_align_value p) as H.
  destruct (shl_align p 0 _) as [mz ez]. destruct H as (He & Hfexp & Hval).
  apply binary_round_aux_lower; try assumption; try lia.
  - reflexivity.
  - etransitivity; [|exact Hval]. unfold sval. rewrite Z.mul_1_l.
    apply Z.pow_le_mono_r; lia.
Qed.

End Binary64.


(** ** Strings *)

Section Strings.

Local Open Scope nat_scope.

Lemma append_nil_r (s : string) : (s ++ EmptyString)%string = s.
Proof. induction s as [|c s IH]; cbn; [reflexivity | now rewrite IH]. Qed.

Lemma append_assoc (a b c : string) :
  ((a ++ b) ++ c)%string = (a ++ (b ++ c))%string.
Proof. induction a as [|x a IH]; cbn; [reflexivity | now rewrite IH]. Qed.

Lemma length_append (a b : string) :
  String.length (a ++ b) = String.length a + String.length b.
Proof. induction a as [|x a IH]; cbn; [reflexivity | now rewrite IH]. Qed.

(** Two prefixes of the same length of one text are the same prefix. *)
Lemma append_same_length (a b c d : string) :
  (a ++ b)%string = (c ++ d)%string -> String.length a = String.length c ->
  a = c /\ b = d.
Proof.
  revert c. induction a as [|x a IH]; intros [|y c] Heq Hlen;
    cbn in *; try discriminate; [tauto|].
  injection Heq as -> Heq. injection Hlen as Hlen.
  destruct (IH c Heq Hlen) as [-> ->]. tauto.
Qed.

(** *** The pattern matches exactly the delimiters at a word boundary *)

Lemma digits_dot_sound (s : string) (n : nat) :
  digits_dot s = Some n ->
  exists ds rest,
    s = (ds ++ String "." rest)%string /\ ds <> EmptyString
    /\ all_digits ds = true /\ n = S (String.length ds).
Proof.
  revert n. induction s as [|c s IH]; intros n H; cbn in H; [discriminate|].
  destruct (is_digit c) eqn:Hc; [|discriminate].
  destruct (digits_dot s) as [k|] eqn:Hk.
  - injection H as <-. destruct (IH k eq_refl) as (ds & rest & -> & Hne & Hds & ->).
    exists (String c ds), rest. cbn. rewrite Hc, Hds. repeat split; congruence.
  - destruct s as [|d s]; [discriminate|].
    destruct (Ascii.eqb_spec d ".") as [->|]; [|discriminate].
    injection H as <-. exists (String c EmptyString), s. cbn. rewrite Hc.
    repeat split; congruence.
Qed.

Lemma digits_dot_cons (c : ascii) (s : string) :
  digits_dot (String c s) =
  if is_digit c then
    match digits_dot s with
    | Some n => Some (S n)
    | None =>
        match s with
        | String d _ => if Ascii.eqb d "." then Some 2 else None
        | EmptyString => None
        end
    end
  else None.
Proof. reflexivity. Qed.

Lemma digits_dot_complete (ds rest : string) :
  ds <> EmptyString -> all_digits ds = true ->
  digits_dot (ds ++ String "." rest) = Some (S (String.length ds)).
Proof.
  induction ds as [|c ds IH]; intros Hne Hds; [congruence|].
  cbn in Hds. apply andb_true_iff in Hds as [Hc Hds].
  cbn [append]. rewrite digits_dot_cons, Hc.
  destruct ds as [|c' ds].
  - reflexivity.
  - rewrite IH by (assumption || congruence). reflexivity.
Qed.

Lemma digits_dot_first_digit (c : ascii) (s : string) (n : nat) :
  digits_dot (String c s) = Some n -> is_digit c = true.
Proof. cbn. destruct (is_digit c); [reflexivity | discriminate]. Qed.

Lemma length_delimiter (d : string) : delimiter d -> 2 <= String.length d.
Proof.
  intros [ds Hne _|ds Hne _]; destruct ds; try congruence;
    cbn; rewrite ?length_append; cbn; lia.
Qed.

Lemma optional_Q_digits_dot_sound (s : string) (n : nat) :
  optional_Q_digits_dot s = Some n ->
  exists d rest, s = (d ++ rest)%string /\ delimiter d /\ String.length d = n.
Proof.
  assert (Hdigits : forall s n, digits_dot s = Some n ->
            exists d rest, s = (d ++ rest)%string /\ delimiter d
                           /\ String.length d = n).
  { intros s0 n0 H. apply digits_dot_sound in H as (ds & rest & -> & Hne & Hds & ->).
    exists (ds ++ ".")%string, rest. rewrite append_assoc, length_append. cbn.
    repeat split; [now constructor | lia]. }
  destruct s as [|c s]; cbn [optional_Q_digits_dot]; [discriminate|].
  destruct (Ascii.eqb_spec c "Q") as [->|Hc]; [|apply Hdigits].
  destruct (digits_dot s) as [k|] eqn:Hk; [|apply Hdigits].
  intros H. injection H as <-.
  apply digits_dot_sound in Hk as (ds & rest & -> & Hne & Hds & ->).
  exists (String "Q" (ds ++ ".")), rest. cbn. rewrite append_assoc, length_append. cbn.
  repeat split; [now constructor | lia].
Qed.

Lemma optional_Q_digits_dot_complete (d rest : string) :
  delimiter d ->
  optional_Q_digits_dot (d ++ rest) = Some (String.length d).
Proof.
  intros [ds Hne Hds|ds Hne Hds].
  - assert (Happ : ((ds ++ ".") ++ rest)%string = (ds ++ String "." rest)%string)
      by (rewrite append_assoc; reflexivity).
    pose proof (digits_dot_complete ds rest Hne Hds) as H.
    rewrite Happ, length_append, Nat.add_1_r.
    destruct ds as [|c ds]; [congruence|].
    cbn [append optional_Q_digits_dot] in *.
    destruct (Ascii.eqb_spec c "Q") as [->|Hc]; [|exact H].
    cbn in Hds. discriminate.
  - assert (Happ : ((ds ++ ".") ++ rest)%string = (ds ++ String "." rest)%string)
      by (rewrite append_assoc; reflexivity).
    change (String "Q" (ds ++ ".") ++ rest)%string
      with (String "Q" ((ds ++ ".") ++ rest)).
    rewrite Happ. cbn [optional_Q_digits_dot String.length].
    rewrite Ascii.eqb_refl, digits_dot_complete by assumption.
    rewrite length_append, Nat.add_1_r. reflexivity.
Qed.

Lemma pattern_sound (prev : option ascii) (s : string) (n : nat) :
  pattern prev s = Some n ->
  exists d rest, delimiter_at prev s d rest /\ String.length d = n.
Proof.
  unfold pattern, delimiter_at. destruct (word_boundary prev s); [|discriminate].
  intros H. apply optional_Q_digits_dot_sound in H as (d & rest & -> & Hd & <-).
  exists d, rest. auto.
Qed.

Lemma pattern_complete (prev : option ascii) (s d rest : string) :
  delimiter_at prev s d rest -> pattern prev s = Some (String.length d).
Proof.
  intros (-> & Hd & Hb). unfold pattern. rewrite Hb.
  now apply optional_Q_digits_dot_complete.
Qed.

(** *** The scan of [re.split] cuts at the delimiters, from the left *)

Lemma split_scan_nonempty pat (s : string) : forall prev skip,
  split_scan pat prev skip s <> [].
Proof.
  induction s as [|c s IH]; intros prev skip; cbn; [discriminate|].
  destruct skip as [|k]; [|apply IH].
  destruct (pat prev (String c s)) as [[|k]|]; try discriminate;
    (destruct (split_scan pat (Some c) 0 s) eqn:H; [now apply IH in H | discriminate]).
Qed.

Lemma split_scan_skip pat (d rest : string) : forall prev,
  split_scan pat prev (String.length d) (d ++ rest)
  = split_scan pat (last_char prev d) 0 rest.
Proof.
  induction d as [|x d IH]; intros prev; cbn; [reflexivity | apply IH].
Qed.

Lemma no_delimiter_at (prev : option ascii) (s : string) :
  (pattern prev s = None \/ pattern prev s = Some 0) ->
  forall d rest, ~ delimiter_at prev s d rest.
Proof.
  intros H d rest Hd. pose proof (length_delimiter d (proj1 (proj2 Hd))).
  apply pattern_complete in Hd. destruct H as [H|H]; rewrite H in Hd;
    [discriminate | injection Hd; lia].
Qed.

Lemma split_scan_splits (n : nat) : forall (s : string) prev,
  String.length s <= n -> splits prev s (split_scan pattern prev 0 s).
Proof.
  induction n as [|n IH]; intros [|c s] prev Hlen; cbn in Hlen;
    try lia; try apply splits_end.
  cbn [split_scan].
  destruct (pattern prev (String c s)) as [[|k]|] eqn:Hp.
  - pose proof (no_delimiter_at prev _ (or_intror Hp)) as Hno.
    destruct (split_scan pattern (Some c) 0 s) as [|part parts] eqn:Hs;
      [now apply split_scan_nonempty in Hs|].
    apply splits_char; [assumption|]. rewrite <- Hs. apply IH. lia.
  - destruct (pattern_sound _ _ _ Hp) as (d & rest & Hd & Hk).
    destruct d as [|c' d]; [discriminate|].
    pose proof Hd as (Heq & _). cbn in Heq, Hk.
    injection Heq as <- ->. injection Hk as <-.
    rewrite split_scan_skip.
    apply splits_delimiter with (d := String c d) (rest := rest); [assumption|].
    apply IH. rewrite length_append in Hlen. lia.
  - pose proof (no_delimiter_at prev _ (or_introl Hp)) as Hno.
    destruct (split_scan pattern (Some c) 0 s) as [|part parts] eqn:Hs;
      [now apply split_scan_nonempty in Hs|].
    apply splits_char; [assumption|]. rewrite <- Hs. apply IH. lia.
Qed.

Lemma re_split_splits (text : string) :
  splits None text (re_split pattern text).
Proof. apply (split_scan_splits (String.length text)). lia. Qed.

(** At one position at most one delimiter starts. *)
Lemma delimiter_at_unique (prev : option ascii) (s d1 rest1 d2 rest2 : string) :
  delimiter_at prev s d1 rest1 -> delimiter_at prev s d2 rest2 ->
  d1 = d2 /\ rest1 = rest2.
Proof.
  intros H1 H2. pose proof (pattern_complete _ _ _ _ H1) as P1.
  pose proof (pattern_complete _ _ _ _ H2) as P2.
  destruct H1 as (E1 & _), H2 as (E2 & _).
  apply append_same_length; congruence.
Qed.

Lemma no_delimiter_at_end (prev : option ascii) (d rest : string) :
  ~ delimiter_at prev EmptyString d rest.
Proof.
  intros (Heq & Hdel & _). apply length_delimiter in Hdel.
  destruct d; cbn in Hdel; [lia | discriminate].
Qed.

Lemma splits_functional (prev : option ascii) (s : string)
    (parts1 parts2 : list string) :
  splits prev s parts1 -> splits prev s parts2 -> parts1 = parts2.
Proof.
  intros H1. revert parts2.
  induction H1 as [prev|prev s d rest parts Hd _ IH|prev c s part parts Hno _ IH];
    intros parts2 H2; inversion H2; subst;
    try reflexivity;
    try (exfalso; eapply no_delimiter_at_end; eassumption);
    try (exfalso; match goal with
                  | Hn : forall d rest, ~ delimiter_at _ _ d rest |- _ =>
                      eapply Hn; eassumption
                  end).
  - match goal with
    | Hd' : delimiter_at _ _ _ _ |- _ =>
        destruct (delimiter_at_unique _ _ _ _ _ _ Hd Hd') as [<- <-]
    end.
    f_equal. now apply IH.
  - match goal with
    | Hs : splits (Some c) s _ |- _ => apply IH in Hs; congruence
    end.
Qed.

(** *** The loop of [split_answers] *)

Lemma split_answers_loop (parts cleaned : list string) :
  fold_left
    (fun cleaned part =>
       let part := strip part in
       if 20 <? String.length part then (cleaned ++ [part])%list else cleaned)
    parts cleaned
  = (cleaned ++ filter long_enough (map strip parts))%list.
Proof.
  revert cleaned.
  induction parts as [|part parts IH]; intros cleaned; cbn [fold_left map filter].
  - now rewrite app_nil_r.
  - rewrite IH. unfold long_enough at 2.
    destruct (20 <? String.length (strip part)); [|reflexivity].
    now rewrite <- app_assoc.
Qed.

Lemma split_answers_filter (text : string) :
  split_answers text = filter long_enough (map strip (re_split pattern text)).
Proof. unfold split_answers. now rewrite split_answers_loop. Qed.

(** *** [strip] removes the whitespace of both ends, and nothing else *)

Lemma lstrip_spec (s : string) :
  exists l, s = (l ++ lstrip s)%string /\ all_space l = true.
Proof.
  induction s as [|c s (l & IH & Hl)]; [now exists EmptyString|].
  cbn [lstrip]. destruct (is_space c) eqn:Hc.
  - exists (String c l). cbn [append all_space]. rewrite Hc, Hl. now rewrite <- IH.
  - now exists EmptyString.
Qed.

Lemma rstrip_spec (s : string) :
  exists r, s = (rstrip s ++ r)%string /\ all_space r = true.
Proof.
  induction s as [|c s (r & IH & Hr)]; [now exists EmptyString|].
  cbn [rstrip]. destruct (rstrip s) as [|c' t] eqn:Ht.
  - destruct (is_space c) eqn:Hc.
    + exists (String c r). cbn [append all_space] in *. rewrite Hc, Hr.
      split; [congruence | reflexivity].
    + exists r. cbn [append] in *. split; [congruence | assumption].
  - exists r. cbn [append] in *. split; [congruence | assumption].
Qed.

Lemma strip_spec (s : string) :
  exists l r, s = (l ++ strip s ++ r)%string
              /\ all_space l = true /\ all_space r = true.
Proof.
  destruct (lstrip_spec s) as (l & Hl & Hsl).
  destruct (rstrip_spec (lstrip s)) as (r & Hr & Hsr).
  exists l, r. unfold strip. now rewrite <- Hr.
Qed.

Lemma lstrip_head (s : string) :
  match lstrip s with
  | String c _ => is_space c = false
  | EmptyString => True
  end.
Proof.
  induction s as [|c s IH]; cbn; [exact I|].
  destruct (is_space c) eqn:Hc; [exact IH | exact Hc].
Qed.

Lemma rstrip_last (s : string) :
  match last_char None (rstrip s) with
  | Some c => is_space c = false
  | None => rstrip s = EmptyString
  end.
Proof.
  induction s as [|c s IH]; cbn [rstrip]; [reflexivity|].
  destruct (rstrip s) as [|c' t].
  - destruct (is_space c) eqn:Hc; cbn; auto.
  - cbn in *. destruct (last_char (Some c') t) eqn:Hl; [exact IH | discriminate].
Qed.

Lemma rstrip_head (s : string) :
  match s with
  | String c _ =>
      is_space c = false -> exists t, rstrip s = String c t
  | EmptyString => True
  end.
Proof.
  destruct s as [|c s]; [exact I|]. intros Hc. cbn [rstrip].
  destruct (rstrip s); [rewrite Hc|]; eauto.
Qed.

(** The trimmed text neither starts nor ends with a whitespace. *)
Lemma strip_trimmed (s : string) : trimmed (strip s).
Proof.
  unfold trimmed, strip. pose proof (lstrip_head s) as Hh.
  pose proof (rstrip_head (lstrip s)) as Hr.
  pose proof (rstrip_last (lstrip s)) as Hl.
  destruct (lstrip s) as [|c t]; [exact I|].
  destruct (Hr Hh) as (t' & Ht). rewrite Ht in *. split; [assumption|].
  destruct (last_char None (String c t')) as [c'|]; [eauto | discriminate].
Qed.

(** *** Further properties of the segmentation *)

Lemma is_digit_word (c : ascii) : is_digit c = true -> is_word c = true.
Proof. unfold is_word. intros ->. reflexivity. Qed.

Lemma delimiter_head (d : string) :
  delimiter d -> exists c d', d = String c d' /\ is_word c = true.
Proof.
  intros [ds Hne Hds|ds Hne Hds].
  - destruct ds as [|c ds]; [congruence|]. cbn in Hds.
    apply andb_true_iff in Hds as [Hc _].
    exists c, (ds ++ ".")%string. split; [reflexivity | now apply is_digit_word].
  - exists "Q"%char, (ds ++ ".")%string. split; reflexivity.
Qed.

Lemma word_boundary_delimiter (prev : option ascii) (d rest : string) :
  delimiter d -> word_boundary prev (d ++ rest) = not_after_word prev.
Proof.
  intros Hd. destruct (delimiter_head d Hd) as (c & d' & -> & Hc).
  unfold word_boundary, not_after_word. cbn [append]. rewrite Hc.
  destruct prev as [p|]; [destruct (is_word p)|]; reflexivity.
Qed.

(** X1. The pattern of [split_answers] matches at a position exactly when
    a delimiter (an optional Q, digits, a period) starts there and the
    character before the position, if any, is no letter, digit or
    underscore; the match is that delimiter. *)
Theorem pattern_matches_iff (prev : option ascii) (s : string) (n : nat) :
  pattern prev s = Some n <->
  not_after_word prev = true
  /\ exists d rest, s = (d ++ rest)%string /\ delimiter d
                    /\ String.length d = n.
Proof.
  split.
  - intros H. destruct (pattern_sound _ _ _ H) as (d & rest & (-> & Hd & Hb) & Hn).
    rewrite word_boundary_delimiter in Hb by assumption. eauto 6.
  - intros (Hp & d & rest & -> & Hd & <-).
    apply (pattern_complete prev _ d rest).
    repeat split; [assumption|]. now rewrite word_boundary_delimiter.
Qed.

Lemma weave_cons_char (c : ascii) (part : string) (parts ds : list string) :
  weave (String c part :: parts) ds = String c (weave (part :: parts) ds).
Proof. destruct ds; reflexivity. Qed.

Lemma splits_weave (prev : option ascii) (s : string) (parts : list string) :
  splits prev s parts ->
  exists ds, Forall delimiter ds
             /\ List.length parts = S (List.length ds)
             /\ s = weave parts ds.
Proof.
  induction 1 as [prev|prev s d rest parts Hd _ (ds & Hds & Hlen & IH)
                 |prev c s part parts _ _ (ds & Hds & Hlen & IH)].
  - exists []. repeat split. constructor.
  - exists (d :: ds). destruct Hd as (-> & Hd & _).
    split; [now constructor|]. split; [cbn; lia|].
    rewrite IH. reflexivity.
  - exists ds. split; [assumption|]. split; [exact Hlen|].
    now rewrite weave_cons_char, <- IH.
Qed.

Lemma re_split_weave (text : string) :
  exists ds, Forall delimiter ds
             /\ List.length (re_split pattern text) = S (List.length ds)
             /\ text = weave (re_split pattern text) ds.
Proof. apply (splits_weave None), re_split_splits. Qed.

(** X2. [re.split] in [split_answers] loses nothing but delimiters: the
    text is the parts in order with one delimiter between each two. *)
Theorem split_loses_only_delimiters (text : string) :
  exists delimiters,
    Forall delimiter delimiters
    /\ List.length (re_split pattern text) = S (List.length delimiters)
    /\ text = weave (re_split pattern text) delimiters.
Proof. apply re_split_weave. Qed.

Lemma substring_of_trans (a b c : string) :
  substring_of a b -> substring_of b c -> substring_of a c.
Proof.
  intros (b1 & b2 & ->) (c1 & c2 & ->).
  exists (c1 ++ b1)%string, (b2 ++ c2)%string. now rewrite !append_assoc.
Qed.

Lemma weave_substring (parts : list string) : forall (ds : list string) part,
  List.length parts = S (List.length ds) -> In part parts ->
  substring_of part (weave parts ds).
Proof.
  induction parts as [|p parts IH]; intros ds part Hlen Hin; [contradiction|].
  destruct ds as [|d ds].
  - destruct parts; [|discriminate]. destruct Hin as [->|[]].
    exists EmptyString, EmptyString. cbn. now rewrite append_nil_r.
  - cbn [weave]. destruct Hin as [->|Hin].
    + exists EmptyString, (d ++ weave parts ds)%string. reflexivity.
    + destruct (IH ds part) as (b & a & Heq); [cbn in Hlen; lia | assumption|].
      exists (p ++ d ++ b)%string, a. rewrite Heq. now rewrite !append_assoc.
Qed.

(** X3. Every segment that [split_answers] returns stands in the text as
    it is, has no whitespace at either end and has more than 20
    characters. *)
Theorem segments_are_trimmed_substrings (text part : string) :
  In part (split_answers text) ->
  substring_of part text /\ trimmed part /\ 20 < String.length part.
Proof.
  rewrite split_answers_filter, filter_In, in_map_iff.
  intros ((raw & <- & Hraw) & Hlong). split; [|split].
  - apply substring_of_trans with (b := raw).
    + destruct (strip_spec raw) as (l & r & Heq & _). now exists l, r.
    + destruct (re_split_weave text) as (ds & _ & Hlen & Heq).
      rewrite Heq at 1. now apply weave_substring.
  - apply strip_trimmed.
  - now apply Nat.ltb_lt.
Qed.

Lemma digits_dot_no_digit (s : string) :
  no_digit s = true -> digits_dot s = None.
Proof.
  destruct s as [|c s]; [reflexivity|]. cbn [no_digit]. intros H.
  apply andb_true_iff in H as [Hc _]. rewrite digits_dot_cons.
  now destruct (is_digit c).
Qed.

Lemma split_scan_no_digit (s : string) : forall prev,
  no_digit s = true -> split_scan pattern prev 0 s = [s].
Proof.
  induction s as [|c s IH]; intros prev H; [reflexivity|].
  pose proof (digits_dot_no_digit _ H) as Hd. cbn [no_digit] in H.
  apply andb_true_iff in H as [Hc Hs].
  cbn [split_scan]. unfold pattern, optional_Q_digits_dot.
  rewrite Hd, (digits_dot_no_digit s Hs), (IH _ Hs).
  destruct (word_boundary prev (String c s)), (Ascii.eqb c "Q"); reflexivity.
Qed.

(** X4. A text without any digit is not split: [split_answers] returns
    the whole trimmed text when it has more than 20 characters, and
    nothing otherwise. *)
Theorem text_without_digit_is_one_segment (text : string) :
  no_digit text = true ->
  split_answers text
  = if (20 <? String.length (strip text))%nat then [strip text] else [].
Proof.
  intros H. rewrite split_answers_filter. unfold re_split.
  rewrite split_scan_no_digit by assumption. reflexivity.
Qed.

End Strings.


(** *** The claims on the segmentation *)

(** C5, as stated, fails on a delimiter inside a word: in "see fig2. for
    ..." the text "2." is a digit and a period, yet [split_answers] does
    not cut there and keeps it in the one segment it returns; cutting at
    every occurrence would leave the text after "2." alone. *)
Lemma delimiter_inside_word_not_cut :
  let text := "see fig2. for the details of the experiment" in
  delimiter "2."
  /\ text = ("see fig" ++ "2." ++ " for the details of the experiment")%string
  /\ split_answers text = [text]
  /\ split_answers_as_specified text = ["for the details of the experiment"].
Proof.
  repeat split. apply (delimiter_digits "2"); [discriminate | reflexivity].
Qed.

(** C5, amended. [split_answers] cuts the text at each delimiter (an
    optional Q, one or more digits, a period) that starts at a word
    boundary, from left to right, drops the delimiters, trims each part
    of the whitespace of its ends, drops the trimmed parts of length at
    most 20 and returns the others in order.  The text "1. Hello world
    this is long enough. 2. Short." gives its first segment alone. *)
Theorem split_answers_at_word_boundaries (text : string) :
  (forall parts, splits None text parts <-> parts = re_split pattern text)
  /\ split_answers text
     = filter long_enough (map strip (re_split pattern text))
  /\ (forall part,
        trimmed (strip part)
        /\ exists l r, part = (l ++ strip part ++ r)%string
                       /\ all_space l = true /\ all_space r = true)
  /\ split_answers "1. Hello world this is long enough. 2. Short."
     = ["Hello world this is long enough."].
Proof.
  split; [|split; [|split]].
  - intros parts. split.
    + intros H. exact (splits_functional _ _ _ _ H (re_split_splits text)).
    + intros ->. apply re_split_splits.
  - apply split_answers_filter.
  - intros part. split; [apply strip_trimmed | apply strip_spec].
  - reflexivity.
Qed.

(** C6, as stated, fails: a trimmed segment of exactly 20 characters is
    dropped. *)
Lemma segment_of_20_characters_dropped :
  let text := "1. abcdefghijklmnopqrst" in
  map strip (re_split pattern text) = [EmptyString; "abcdefghijklmnopqrst"]
  /\ String.length "abcdefghijklmnopqrst" = 20%nat
  /\ split_answers text = [].
Proof. repeat split. Qed.

(** C6, amended. The trimmed segments of at most 20 characters are
    dropped, the longer ones are kept: a segment of exactly 20 characters
    is dropped, one of 21 is kept. *)
Theorem segments_over_20_characters_kept (text part : string) :
  (In part (split_answers text) <->
   In part (map strip (re_split pattern text))
   /\ (20 < String.length part)%nat)
  /\ split_answers "1. abcdefghijklmnopqrstu" = ["abcdefghijklmnopqrstu"].
Proof.
  split; [|reflexivity].
  rewrite split_answers_filter, filter_In. unfold long_enough.
  now rewrite Nat.ltb_lt.
Qed.

(** ** The route *)

Section RouteFacts.

Variable pdf_reader : string -> option (list page_read).
Variable image : Type.
Variable convert_from_bytes : string -> option (list image).
Variable image_to_string : image -> option string.
Variable embedding : Type.
Variable encode : list string -> list embedding.
Variable cos_sim : embedding -> embedding -> spec_float.

#[warnings="-notation-for-abbreviation"]
Local Notation extract_text :=
  (extract_text pdf_reader image convert_from_bytes image_to_string).
#[warnings="-notation-for-abbreviation"]
Local Notation answers_of :=
  (answers_of pdf_reader image convert_from_bytes image_to_string).
#[warnings="-notation-for-abbreviation"]
Local Notation score_loop := (score_loop embedding cos_sim).
#[warnings="-notation-for-abbreviation"]
Local Notation raw_similarities := (raw_similarities embedding cos_sim).
#[warnings="-notation-for-abbreviation"]
Local Notation analyze_student :=
  (analyze_student pdf_reader image convert_from_bytes image_to_string
     embedding encode cos_sim).
#[warnings="-notation-for-abbreviation"]
Local Notation analyze_students :=
  (analyze_students pdf_reader image convert_from_bytes image_to_string
     embedding encode cos_sim).
#[warnings="-notation-for-abbreviation"]
Local Notation analyze :=
  (analyze pdf_reader image convert_from_bytes image_to_string
     embedding encode cos_sim).
#[warnings="-notation-for-abbreviation"]
Local Notation student_report :=
  (student_report pdf_reader image convert_from_bytes image_to_string
     embedding encode cos_sim).
#[warnings="-notation-for-abbreviation"]
Local Notation student_trace :=
  (student_trace pdf_reader image convert_from_bytes image_to_string
     embedding encode cos_sim).

Local Open Scope nat_scope.

Lemma bind_eq {A B} (m : traced A) (k : A -> traced B) :
  bind m k = ((trace_of m ++ trace_of (k (value_of m)))%list,
              value_of (k (value_of m))).
Proof.
  unfold bind, trace_of, value_of. destruct m as [l a]; cbn.
  destruct (k a); reflexivity.
Qed.

Lemma traced_eta {A} (m : traced A) : m = (trace_of m, value_of m).
Proof. now destruct m. Qed.

(** *** The scoring loop computes the entries of the aligned pairs *)

Lemma score_pair_run (teacher_embeddings student_embeddings : list embedding)
    (questions : list question_result) (similarities : list pynum)
    (i : nat) (t s : embedding) :
  nth_error teacher_embeddings i = Some t ->
  nth_error student_embeddings i = Some s ->
  score_pair embedding cos_sim teacher_embeddings student_embeddings
    (questions, similarities) i
  = ([EvCosSim i],
     inr ((questions ++ [question_of i (cos_sim t s)])%list,
          (similarities ++ [clamp (cos_sim t s)])%list)).
Proof. intros Ht Hs. unfold score_pair. rewrite Ht, Hs. reflexivity. Qed.

Lemma nth_error_after {A} (before : list A) (x : A) (rest : list A) :
  nth_error (before ++ x :: rest) (List.length before) = Some x.
Proof. rewrite nth_error_app2, Nat.sub_diag by lia. reflexivity. Qed.

Lemma score_loop_run (teacher_embeddings : list embedding) :
  forall student_embeddings before_t before_s questions similarities,
  List.length before_t = List.length before_s ->
  let raws := raw_similarities teacher_embeddings student_embeddings in
  let range := seq (List.length before_t) (List.length raws) in
  score_loop range (before_t ++ teacher_embeddings)
    (before_s ++ student_embeddings) (questions, similarities)
  = (map EvCosSim range,
     inr ((questions ++ questions_from (List.length before_t) raws)%list,
          (similarities ++ map clamp raws)%list)).
Proof.
  induction teacher_embeddings as [|t ts IH];
    intros [|s ss] before_t before_s questions similarities Hlen;
    unfold raw_similarities;
    cbn [combine map List.length seq score_loop questions_from fst snd];
    rewrite ?app_nil_r; try reflexivity.
  rewrite bind_eq.
  rewrite (score_pair_run _ _ _ _ _ t s)
    by (first [apply nth_error_after | rewrite Hlen; apply nth_error_after]).
  cbn [trace_of value_of fst snd].
  replace (before_t ++ t :: ts)%list with ((before_t ++ [t]) ++ ts)%list
    by (now rewrite <- app_assoc).
  replace (before_s ++ s :: ss)%list with ((before_s ++ [s]) ++ ss)%list
    by (now rewrite <- app_assoc).
  replace (S (List.length before_t)) with (List.length (before_t ++ [t])%list)
    by (rewrite length_app; cbn; lia).
  specialize (IH ss (before_t ++ [t])%list (before_s ++ [s])%list).
  unfold raw_similarities in IH. cbn zeta in IH.
  rewrite IH by (rewrite !length_app; cbn; lia).
  rewrite <- !app_assoc. reflexivity.
Qed.

(** *** One student, and the loop over the students *)

Section Contract.

(** The contract of the embedding model: one vector for each text. *)
Hypothesis encode_length :
  forall texts, List.length (encode texts) = List.length texts.

Lemma analyze_student_run (teacher_answers : list string)
    (student_pdf : upload) :
  analyze_student teacher_answers (encode teacher_answers) student_pdf
  = (student_trace (encode teacher_answers) student_pdf,
     inr (student_report (encode teacher_answers) student_pdf)).
Proof.
  unfold analyze_student, student_trace, student_report, App.answers_of.
  rewrite bind_eq.
  set (answers := split_answers (value_of (extract_text student_pdf))).
  destruct answers as [|a answers'] eqn:Ha.
  - cbn [List.length Nat.eqb ret trace_of value_of fst snd].
    assert (He : encode [] = []).
    { pose proof (encode_length []) as H. now destruct (encode []). }
    rewrite He. unfold App.raw_similarities.
    destruct (encode teacher_answers); reflexivity.
  - cbn [List.length Nat.eqb]. rewrite <- Ha. rewrite !bind_eq.
    cbn [tell trace_of value_of fst snd].
    set (temb := encode teacher_answers). set (semb := encode answers).
    assert (Hn : Nat.min (List.length teacher_answers) (S (List.length answers'))
                 = List.length (raw_similarities temb semb)).
    { unfold App.raw_similarities, temb, semb.
      rewrite length_map, length_combine, !encode_length, Ha. reflexivity. }
    rewrite Hn.
    pose proof (score_loop_run temb semb [] [] [] [] eq_refl) as Hrun.
    cbn [app List.length] in Hrun. cbn zeta in Hrun. rewrite Hrun.
    cbn [ret trace_of value_of fst snd app]. rewrite app_nil_r. reflexivity.
Qed.

Lemma analyze_students_run (teacher_answers : list string)
    (student_pdfs : list upload) : forall all_results,
  analyze_students teacher_answers (encode teacher_answers) student_pdfs
    all_results
  = (List.concat (map (student_trace (encode teacher_answers)) student_pdfs),
     inr (all_results
          ++ map (student_report (encode teacher_answers)) student_pdfs)%list).
Proof.
  induction student_pdfs as [|student_pdf rest IH]; intros all_results;
    cbn [analyze_students map List.concat].
  - now rewrite app_nil_r.
  - rewrite bind_eq, analyze_student_run. cbn [trace_of value_of fst snd].
    rewrite IH. cbn [fst snd]. now rewrite <- app_assoc.
Qed.

Lemma analyze_run (request_files : files) (teacher_pdf : upload) :
  getfirst "teacher" request_files = Some teacher_pdf ->
  getlist "students" request_files <> [] ->
  answers_of teacher_pdf <> [] ->
  let teacher_embeddings := encode (answers_of teacher_pdf) in
  let student_pdfs := getlist "students" request_files in
  analyze request_files
  = ((trace_of (extract_text teacher_pdf)
      ++ EvEncode (answers_of teacher_pdf)
         :: List.concat (map (student_trace teacher_embeddings) student_pdfs))%list,
     {| http_status := 200;
        json := Success (map (student_report teacher_embeddings) student_pdfs) |}).
Proof.
  intros Ht Hs Ha. unfold App.analyze. rewrite Ht.
  destruct (getlist "students" request_files) as [|s0 ss] eqn:Hss; [congruence|].
  cbn [List.length Nat.eqb]. rewrite bind_eq.
  fold (answers_of teacher_pdf).
  destruct (answers_of teacher_pdf) as [|a0 answers] eqn:Has; [congruence|].
  cbn [List.length Nat.eqb]. rewrite !bind_eq, analyze_students_run.
  cbn [tell ret trace_of value_of fst snd app]. now rewrite app_nil_r.
Qed.

(** A successful response lists the report of each student, in order. *)
Lemma analyze_success (request_files : files) (data : list student_result) :
  json (value_of (analyze request_files)) = Success data ->
  exists teacher_pdf,
    getfirst "teacher" request_files = Some teacher_pdf
    /\ getlist "students" request_files <> []
    /\ answers_of teacher_pdf <> []
    /\ data = map (student_report (encode (answers_of teacher_pdf)))
                (getlist "students" request_files).
Proof.
  intros H.
  destruct (getfirst "teacher" request_files) as [teacher_pdf|] eqn:Ht;
    [|unfold App.analyze in H; rewrite Ht in H; discriminate].
  destruct (getlist "students" request_files) as [|s0 ss] eqn:Hss;
    [unfold App.analyze in H; rewrite Ht, Hss in H; discriminate|].
  destruct (answers_of teacher_pdf) as [|a0 answers] eqn:Has.
  { unfold App.analyze in H. rewrite Ht, Hss in H.
    cbn [List.length Nat.eqb] in H. rewrite bind_eq in H.
    fold (answers_of teacher_pdf) in H. rewrite Has in H. discriminate. }
  exists teacher_pdf. rewrite (analyze_run _ _ Ht) in H
    by (rewrite ?Hss, ?Has; discriminate).
  cbn [value_of snd json] in H. injection H as <-.
  rewrite Hss, Has. repeat split; discriminate || reflexivity.
Qed.

End Contract.

(** *** The trace of the extraction *)

Lemma Forall_bind {A B} (P : event -> Prop) (m : traced A)
    (k : A -> traced B) :
  Forall P (trace_of m) -> (forall a, Forall P (trace_of (k a))) ->
  Forall P (trace_of (bind m k)).
Proof.
  intros Hm Hk. rewrite bind_eq. cbn [trace_of fst]. apply Forall_app. auto.
Qed.

Lemma Forall_tell (P : event -> Prop) (e : event) :
  P e -> Forall P (trace_of (tell e)).
Proof. intros H. repeat constructor. exact H. Qed.

Lemma Forall_ret {A} (P : event -> Prop) (a : A) : Forall P (trace_of (ret a)).
Proof. constructor. Qed.

Ltac trace_forall :=
  repeat first
    [ apply Forall_ret
    | apply Forall_tell; cbn; tauto
    | apply Forall_bind; [|intros ?]
    | match goal with
      | |- Forall _ (trace_of (let '(_, _) := ?x in _)) => destruct x
      | |- Forall _ (trace_of (if ?b then _ else _)) => destruct b
      | |- Forall _ (trace_of (match ?x with Some _ => _ | None => _ end)) =>
          destruct x
      end ].

Lemma ocr_pages_no_scoring (images : list image) : forall page text,
  Forall (fun e => ~ scoring_event e)
    (trace_of (ocr_pages image image_to_string page images text)).
Proof.
  induction images as [|img rest IH]; intros page text; cbn [ocr_pages].
  - apply Forall_ret.
  - apply Forall_bind; [apply Forall_tell; cbn; tauto | intros _].
    destruct (image_to_string img); [apply IH | apply Forall_ret].
Qed.

Lemma extract_text_no_scoring (pdf_file : upload) :
  Forall (fun e => ~ scoring_event e) (trace_of (extract_text pdf_file)).
Proof.
  unfold App.extract_text. trace_forall; apply ocr_pages_no_scoring.
Qed.

(** *** The entries of a student *)

Lemma length_questions_from (raws : list spec_float) : forall i,
  List.length (questions_from i raws) = List.length raws.
Proof. induction raws as [|raw rest IH]; intros i; cbn; [|rewrite IH]; reflexivity. Qed.

Lemma question_numbers_from (raws : list spec_float) : forall i,
  map question_number (questions_from i raws)
  = map (fun k => (Z.of_nat k + 1)%Z) (seq i (List.length raws)).
Proof. induction raws as [|raw rest IH]; intros i; cbn; [|rewrite IH]; reflexivity. Qed.

Lemma percents_from (raws : list spec_float) : forall i,
  map similarity_percent (questions_from i raws)
  = map (fun sim => py_round2 (py_mul sim (PyInt 100))) (map clamp raws).
Proof. induction raws as [|raw rest IH]; intros i; cbn; [|rewrite IH]; reflexivity. Qed.

Lemma nth_error_questions_from (raws : list spec_float) : forall i k,
  nth_error (questions_from i raws) k
  = option_map (question_of (i + k)) (nth_error raws k).
Proof.
  induction raws as [|raw rest IH]; intros i [|k]; cbn; try reflexivity.
  - now rewrite Nat.add_0_r.
  - rewrite IH. now rewrite Nat.add_succ_r.
Qed.

Lemma in_questions_from (raws : list spec_float) (q : question_result) :
  forall i, In q (questions_from i raws) ->
  exists k raw, In raw raws /\ q = question_of k raw.
Proof.
  induction raws as [|raw rest IH]; intros i; cbn; [tauto|].
  intros [<-|H]; [eauto|]. destruct (IH _ H) as (k & raw' & Hin & ->). eauto.
Qed.

Lemma length_raw_similarities (teacher_answers student_answers : list string) :
  (forall texts, List.length (encode texts) = List.length texts) ->
  List.length (raw_similarities (encode teacher_answers) (encode student_answers))
  = Nat.min (List.length teacher_answers) (List.length student_answers).
Proof.
  intros H. unfold App.raw_similarities.
  now rewrite length_map, length_combine, !H.
Qed.

Lemma Forall2_map_r {A B} (P : A -> B -> Prop) (f : A -> B) (l : list A) :
  (forall x, P x (f x)) -> Forall2 P l (map f l).
Proof. intros H. induction l; cbn; constructor; auto. Qed.

(** Every entry of a successful response is the entry of a pair of
    embeddings. *)
Lemma question_in_response (request_files : files)
    (data : list student_result) (r : student_result) (q : question_result) :
  (forall texts, List.length (encode texts) = List.length texts) ->
  json (value_of (analyze request_files)) = Success data ->
  In r data -> In q (questions r) ->
  exists i t s, q = question_of i (cos_sim t s).
Proof.
  intros Hlen Hok Hr Hq.
  destruct (analyze_success Hlen _ _ Hok) as (teacher_pdf & _ & _ & _ & ->).
  apply in_map_iff in Hr as (student_pdf & <- & _).
  cbn [App.student_report questions] in Hq.
  apply in_questions_from in Hq as (k & raw & Hin & ->).
  unfold App.raw_similarities in Hin.
  apply in_map_iff in Hin as ([t s] & <- & _). eauto.
Qed.

(** *** The claims on the route *)

(** C1. The label of every scored pair is fixed by its percentage, which
    is the clamped similarity times 100 rounded to two decimals: at least
    75 is "Strong Understanding", else at least 45 is "Partial
    Understanding", else above 0 is "Weak Understanding", else "Not
    Related", which is the label of the percentage 0 and of no other one;
    the label is one of these four.  The percentages 0, 45 and 75 get
    "Not Related", "Partial Understanding" and "Strong Understanding". *)
Theorem status_by_thresholds (request_files : files)
    (data : list student_result) (r : student_result) (q : question_result) :
  (forall texts, List.length (encode texts) = List.length texts) ->
  (forall a b, F64.valid (cos_sim a b) = true) ->
  (forall a b, cos_sim a b <> S754_nan) ->
  json (value_of (analyze request_files)) = Success data ->
  In r data -> In q (questions r) ->
  let percent := similarity_percent q in
  (exists raw, percent = py_round2 (py_mul (clamp raw) (PyInt 100)))
  /\ status q =
       (if py_le (PyInt 75) percent then "Strong Understanding"
        else if py_le (PyInt 45) percent then "Partial Understanding"
        else if py_lt (PyInt 0) percent then "Weak Understanding"
        else "Not Related")
  /\ In (status q)
       ["Strong Understanding"; "Partial Understanding";
        "Weak Understanding"; "Not Related"]
  /\ (status q = "Not Related" <-> percent = PyInt 0)
  /\ status_of (PyInt 0) = "Not Related"
  /\ status_of (PyFloat (F64.of_Z 45)) = "Partial Understanding"
  /\ status_of (PyFloat (F64.of_Z 75)) = "Strong Understanding".
Proof.
  intros Hlen Hvalid Hnan Hok Hr Hq.
  destruct (question_in_response _ _ _ _ Hlen Hok Hr Hq) as (i & t & s & ->).
  cbn [question_of similarity_percent status].
  split; [now exists (cos_sim t s)|]. split; [reflexivity|].
  split; [|split; [|repeat split]].
  - unfold status_of.
    destruct (py_le (PyInt 75) _); [|destruct (py_le (PyInt 45) _);
      [|destruct (py_lt (PyInt 0) _)]]; simpl; auto.
  - apply status_of_not_related, percent_of_cases; auto.
Qed.

(** C10. The percentage of every scored pair is exactly 0 or at least
    20: none lies strictly between 0 and 20, and the label "Weak
    Understanding" goes with percentages from 20 up to, and not
    including, 45. *)
Theorem percent_zero_or_at_least_20 (request_files : files)
    (data : list student_result) (r : student_result) (q : question_result) :
  (forall texts, List.length (encode texts) = List.length texts) ->
  (forall a b, F64.valid (cos_sim a b) = true) ->
  (forall a b, cos_sim a b <> S754_nan) ->
  json (value_of (analyze request_files)) = Success data ->
  In r data -> In q (questions r) ->
  let percent := similarity_percent q in
  (percent = PyInt 0
   \/ exists f, percent = PyFloat f /\ F64.leb (F64.of_Z 20) f = true)
  /\ ~ (py_lt (PyInt 0) percent = true /\ py_lt percent (PyInt 20) = true)
  /\ (status q = "Weak Understanding" ->
      py_le (PyInt 20) percent = true /\ py_lt percent (PyInt 45) = true).
Proof.
  intros Hlen Hvalid Hnan Hok Hr Hq.
  destruct (question_in_response _ _ _ _ Hlen Hok Hr Hq) as (i & t & s & ->).
  cbn [question_of similarity_percent status].
  pose proof (percent_of_cases (cos_sim t s) (Hvalid t s) (Hnan t s)) as Hp.
  repeat split.
  - destruct Hp as [Hp|(f & Hp & Hf)]; [left; exact Hp|right].
    exists f. split; [exact Hp|].
    change (F64.of_Z 20) with (S754_finite false 5629499534213120 (-48)).
    apply at_least_leb; [reflexivity | exact Hf].
  - now apply no_percent_between_0_and_20.
  - now apply status_of_weak.
  - now apply status_of_weak.
Qed.

(** C2. The performance score of a student is the mean of the
    similarities of the scored pairs, taken after the noise floor and
    before any rounding, times 100 and rounded to two decimals; it is 0
    when no pair was scored.  The percentages of the entries are the
    rounded ones.  The similarities 0.9, 0.3 and 0.1 give 40.0. *)
Theorem performance_is_mean (teacher_answers : list string)
    (student_pdf : upload) :
  (forall texts, List.length (encode texts) = List.length texts) ->
  let similarities :=
    map clamp
      (raw_similarities (encode teacher_answers)
         (encode (answers_of student_pdf))) in
  exists r,
    value_of (analyze_student teacher_answers (encode teacher_answers)
                student_pdf) = inr r
    /\ map similarity_percent (questions r)
       = map (fun sim => py_round2 (py_mul sim (PyInt 100))) similarities
    /\ performance_score r =
         match similarities with
         | [] => PyInt 0
         | _ :: _ =>
             py_round2
               (py_mul
                  (py_truediv (py_sum similarities)
                     (PyInt (Z.of_nat (List.length similarities))))
                  (PyInt 100))
         end
    /\ performance_of (map clamp [F64.c090; F64.c030; F64.c010])
       = PyFloat F64.c40.
Proof.
  intros Hlen similarities. eexists.
  rewrite (analyze_student_run Hlen). cbn [value_of snd].
  split; [reflexivity|]. cbn [App.student_report questions performance_score].
  split; [apply percents_from|]. split.
  - fold similarities. unfold performance_of.
    destruct similarities; reflexivity.
  - vm_compute. reflexivity.
Qed.

(** C3. A pair whose raw cosine similarity is below 0.20, a negative one
    included, counts as the int 0: its entry reports the percentage 0 and
    the label "Not Related", and the term it adds to the mean of the
    performance score is 0. *)
Theorem noise_floor (teacher_answers : list string) (student_pdf : upload)
    (i : nat) (raw : spec_float) :
  (forall texts, List.length (encode texts) = List.length texts) ->
  let raws :=
    raw_similarities (encode teacher_answers)
      (encode (answers_of student_pdf)) in
  nth_error raws i = Some raw ->
  F64.ltb raw F64.c020 = true ->
  exists r,
    value_of (analyze_student teacher_answers (encode teacher_answers)
                student_pdf) = inr r
    /\ nth_error (questions r) i
       = Some {| question_number := Z.of_nat i + 1;
                 similarity_percent := PyInt 0;
                 status := "Not Related" |}
    /\ performance_score r = performance_of (map clamp raws)
    /\ nth_error (map clamp raws) i = Some (PyInt 0)
    /\ forall m e, clamp (S754_finite true m e) = PyInt 0.
Proof.
  intros Hlen raws Hi Hlow. eexists.
  rewrite (analyze_student_run Hlen). cbn [value_of snd].
  split; [reflexivity|].
  cbn [App.student_report questions performance_score]. fold raws.
  assert (Hclamp : clamp raw = PyInt 0) by (unfold clamp; now rewrite Hlow).
  repeat split.
  - rewrite nth_error_questions_from, Hi. cbn [option_map Nat.add].
    unfold question_of, percent_of. rewrite Hclamp. reflexivity.
  - rewrite nth_error_map, Hi. cbn [option_map]. now rewrite Hclamp.
Qed.

(** C4. In a successful response each student has one entry for each
    position that both the teacher and the student have an answer at:
    min(len(teacher answers), len(student answers)) entries, numbered
    from 1 in order.  The teacher answers past the student's last one
    have no entry. *)
Theorem one_entry_per_aligned_pair (request_files : files)
    (data : list student_result) :
  (forall texts, List.length (encode texts) = List.length texts) ->
  json (value_of (analyze request_files)) = Success data ->
  exists teacher_pdf,
    getfirst "teacher" request_files = Some teacher_pdf
    /\ Forall2
         (fun student_pdf r =>
            pdf_name r = filename student_pdf
            /\ List.length (questions r)
               = Nat.min (List.length (answers_of teacher_pdf))
                         (List.length (answers_of student_pdf))
            /\ map question_number (questions r)
               = map (fun k => (Z.of_nat k + 1)%Z)
                   (seq 0 (List.length (questions r))))
         (getlist "students" request_files) data.
Proof.
  intros Hlen Hok.
  destruct (analyze_success Hlen _ _ Hok) as (teacher_pdf & Ht & _ & _ & ->).
  exists teacher_pdf. split; [exact Ht|].
  apply Forall2_map_r. intros student_pdf.
  cbn [App.student_report pdf_name questions].
  rewrite length_questions_from, question_numbers_from.
  rewrite length_raw_similarities by assumption. auto.
Qed.

(** C7. The route validates in order, and answers a violation with the
    status 400 and the message of the violation, without going on: no
    "teacher" file, then no "students" file, before any file is read;
    then a teacher document with no answer segment, after the extraction
    of that document only. *)
Theorem validation_errors (request_files : files) :
  (getfirst "teacher" request_files = None ->
   analyze request_files
   = ([], {| http_status := 400;
             json := Error "Teacher key not uploaded" |}))
  /\ (forall teacher_pdf,
        getfirst "teacher" request_files = Some teacher_pdf ->
        getlist "students" request_files = [] ->
        analyze request_files
        = ([], {| http_status := 400;
                  json := Error "No student files uploaded" |}))
  /\ (forall teacher_pdf,
        getfirst "teacher" request_files = Some teacher_pdf ->
        getlist "students" request_files <> [] ->
        answers_of teacher_pdf = [] ->
        analyze request_files
        = (trace_of (extract_text teacher_pdf),
           {| http_status := 400;
              json := Error "Teacher answers could not be extracted" |})
        /\ Forall (fun e => ~ scoring_event e)
             (trace_of (analyze request_files))).
Proof.
  split; [|split].
  - unfold App.analyze. intros ->. reflexivity.
  - unfold App.analyze. intros teacher_pdf -> ->. reflexivity.
  - intros teacher_pdf Ht Hs Ha.
    assert (Hrun : analyze request_files
                   = (trace_of (extract_text teacher_pdf),
                      {| http_status := 400;
                         json := Error "Teacher answers could not be extracted" |})).
    { unfold App.analyze. rewrite Ht.
      destruct (getlist "students" request_files); [congruence|].
      cbn [List.length Nat.eqb]. rewrite bind_eq.
      fold (answers_of teacher_pdf). rewrite Ha.
      cbn [List.length Nat.eqb ret trace_of value_of fst snd].
      now rewrite app_nil_r. }
    split; [exact Hrun|]. rewrite Hrun. apply extract_text_no_scoring.
Qed.

(** C8. With a valid teacher document, a student document with no answer
    segment is not scored: nothing of it is encoded or compared, its
    result has no entry and the performance score 0, and the request
    succeeds with the results of the other students, each as scored on
    its own, in the order of the files. *)
Theorem empty_student_not_scored (request_files : files)
    (teacher_pdf student_pdf : upload) (before after : list upload) :
  (forall texts, List.length (encode texts) = List.length texts) ->
  getfirst "teacher" request_files = Some teacher_pdf ->
  answers_of teacher_pdf <> [] ->
  getlist "students" request_files = (before ++ student_pdf :: after)%list ->
  answers_of student_pdf = [] ->
  let run :=
    analyze_student (answers_of teacher_pdf)
      (encode (answers_of teacher_pdf)) in
  let empty_result :=
    {| pdf_name := filename student_pdf;
       questions := [];
       performance_score := PyInt 0 |} in
  run student_pdf = (trace_of (extract_text student_pdf), inr empty_result)
  /\ Forall (fun e => ~ scoring_event e) (trace_of (run student_pdf))
  /\ exists results_before results_after,
       Forall2 (fun s r => value_of (run s) = inr r) before results_before
       /\ Forall2 (fun s r => value_of (run s) = inr r) after results_after
       /\ value_of (analyze request_files)
          = {| http_status := 200;
               json := Success (results_before ++ empty_result
                                  :: results_after)%list |}
       /\ trace_of (analyze request_files)
          = (trace_of (extract_text teacher_pdf)
             ++ EvEncode (answers_of teacher_pdf)
                :: List.concat
                     (map (fun s => trace_of (run s))
                        (before ++ student_pdf :: after)))%list.
Proof.
  intros Hlen Ht Hta Hs Hempty run empty_result.
  assert (Hrun : forall s,
            run s = (student_trace (encode (answers_of teacher_pdf)) s,
                     inr (student_report (encode (answers_of teacher_pdf)) s)))
    by (intros s; apply (analyze_student_run Hlen)).
  assert (Hreport : student_report (encode (answers_of teacher_pdf)) student_pdf
                    = empty_result).
  { unfold App.student_report. rewrite Hempty.
    assert (He : encode [] = []).
    { pose proof (Hlen []) as H. now destruct (encode []). }
    rewrite He. unfold App.raw_similarities.
    destruct (encode (answers_of teacher_pdf)); reflexivity. }
  assert (Htrace : student_trace (encode (answers_of teacher_pdf)) student_pdf
                   = trace_of (extract_text student_pdf)).
  { unfold App.student_trace. rewrite Hempty. apply app_nil_r. }
  split; [rewrite Hrun, Hreport, Htrace; reflexivity|].
  split; [rewrite Hrun, Htrace; apply extract_text_no_scoring|].
  exists (map (student_report (encode (answers_of teacher_pdf))) before),
         (map (student_report (encode (answers_of teacher_pdf))) after).
  split; [apply Forall2_map_r; intros s; now rewrite Hrun|].
  split; [apply Forall2_map_r; intros s; now rewrite Hrun|].
  rewrite (analyze_run Hlen _ _ Ht) by (rewrite ?Hs; auto using app_cons_not_nil).
  cbn [value_of trace_of fst snd]. rewrite Hs, map_app. cbn [map].
  rewrite Hreport. split; [reflexivity|].
  do 2 f_equal. f_equal. apply map_ext. intros s. now rewrite Hrun.
Qed.

(** C9. When the direct extraction of a document runs through and its
    text, stripped, has more than 50 characters, [extract_text] returns
    that text at once: the only call is the one to the PDF reader, and
    the OCR is not invoked. *)
Theorem direct_text_skips_ocr (pdf_file : upload) (pages : list page_read)
    (text : string) :
  pdf_reader (content pdf_file) = Some pages ->
  read_pages pages EmptyString = (text, false) ->
  50 < String.length (strip text) ->
  extract_text pdf_file = ([EvPdfReader (content pdf_file)], text)
  /\ Forall (fun e => ~ ocr_event e) (trace_of (extract_text pdf_file)).
Proof.
  intros Hreader Hpages Hlong.
  assert (H : extract_text pdf_file = ([EvPdfReader (content pdf_file)], text)).
  { unfold App.extract_text. rewrite Hreader, Hpages.
    apply Nat.ltb_lt in Hlong.
    cbn [bind tell ret app negb andb]. rewrite Hlong. reflexivity. }
  rewrite H. split; [reflexivity|]. repeat constructor. cbn. tauto.
Qed.

(** When a page raises, the text read so far does not count: the OCR is
    invoked whatever its length. *)
Lemma raising_page_falls_back_to_ocr (pdf_file : upload)
    (pages : list page_read) (text : string) :
  pdf_reader (content pdf_file) = Some pages ->
  read_pages pages EmptyString = (text, true) ->
  Exists ocr_event (trace_of (extract_text pdf_file)).
Proof.
  intros Hreader Hpages. unfold App.extract_text.
  rewrite Hreader, Hpages, !bind_eq.
  cbn [tell ret trace_of value_of fst snd app negb andb].
  rewrite !bind_eq. cbn [tell ret trace_of value_of fst snd app].
  do 3 apply Exists_cons_tl. apply Exists_cons_hd. exact I.
Qed.

(** *** Further properties of [extract_text] *)

#[warnings="-notation-for-abbreviation"]
Local Notation direct_pass := (direct_read pdf_reader).
#[warnings="-notation-for-abbreviation"]
Local Notation ocr_pages := (ocr_pages image image_to_string).

(** The run of [extract_text], by the outcome of its direct pass. *)
Lemma extract_text_run (pdf_file : upload) :
  extract_text pdf_file =
  let text := fst (direct_pass pdf_file) in
  let raised := snd (direct_pass pdf_file) in
  if negb raised && (50 <? String.length (strip text)) then
    ([EvPdfReader (content pdf_file)], text)
  else
    let ocr :=
      match convert_from_bytes (content pdf_file) with
      | Some images => ocr_pages 0 images text
      | None => ([], (text, true))
      end in
    ((EvPdfReader (content pdf_file)
      :: (if raised then [EvPrint "Normal extraction failed:"] else [])
      ++ EvPrint "Switching to OCR..." :: EvConvert (content pdf_file)
      :: trace_of ocr
      ++ (if snd (value_of ocr) then [EvPrint "OCR failed:"] else []))%list,
     fst (value_of ocr)).
Proof.
  unfold App.extract_text, direct_read.
  destruct (pdf_reader (content pdf_file)) as [pages|];
    [destruct (read_pages pages EmptyString) as [text raised]|];
    cbn [bind tell ret fst snd app negb andb];
    try destruct raised;
    cbn [bind tell ret fst snd app negb andb];
    try destruct (50 <? String.length (strip text));
    cbn [bind tell ret fst snd app negb andb]; try reflexivity;
    (destruct (convert_from_bytes (content pdf_file)) as [images|];
     [destruct (ocr_pages 0 images _) as [tr [t []]]|];
     cbn [bind tell ret fst snd app trace_of value_of];
     rewrite ?app_nil_r; reflexivity).
Qed.

Lemma ocr_pages_appends (images : list image) : forall page text,
  exists ocr_text,
    fst (value_of (ocr_pages page images text)) = (text ++ ocr_text)%string.
Proof.
  induction images as [|img rest IH]; intros page text; cbn [App.ocr_pages].
  - exists EmptyString. cbn. now rewrite append_nil_r.
  - rewrite bind_eq. unfold value_of, trace_of. cbn [tell fst snd app].
    destruct (image_to_string img) as [ocr_text|].
    + destruct (IH (S page) (text ++ ocr_text ++ newline)%string) as (more & H).
      exists (ocr_text ++ newline ++ more)%string.
      unfold value_of in H. rewrite H. now rewrite !append_assoc.
    + exists EmptyString. cbn. now rewrite append_nil_r.
Qed.

Lemma ocr_pages_all (images : list image) : forall texts page text,
  map image_to_string images = map Some texts ->
  ocr_pages page images text
  = (map EvImageToString (seq page (List.length images)),
     ((text ++ lines texts)%string, false)).
Proof.
  induction images as [|img rest IH]; intros [|t texts] page text H;
    try discriminate; cbn [App.ocr_pages List.length seq map lines].
  - cbn. now rewrite append_nil_r.
  - cbn [map] in H. injection H as Ht Hrest.
    rewrite bind_eq, Ht. cbn [tell trace_of value_of fst snd app].
    rewrite (IH texts) by assumption. cbn [fst snd].
    now rewrite !append_assoc.
Qed.

Lemma read_pages_run (pages : list page_read) : forall text,
  ~ In PageRaises pages ->
  read_pages pages text = ((text ++ lines (page_texts pages))%string, false).
Proof.
  induction pages as [|[extracted|] rest IH]; intros text Hno;
    cbn [read_pages page_texts].
  - cbn. now rewrite append_nil_r.
  - rewrite IH by (intros H; apply Hno; now right).
    destruct (String.eqb extracted EmptyString); [reflexivity|].
    cbn [lines]. now rewrite !append_assoc.
  - exfalso. apply Hno. now left.
Qed.

Lemma read_pages_raise (before after : list page_read) : forall text,
  ~ In PageRaises before ->
  read_pages (before ++ PageRaises :: after) text
  = ((text ++ lines (page_texts before))%string, true).
Proof.
  induction before as [|[extracted|] rest IH]; intros text Hno;
    cbn [read_pages page_texts app].
  - cbn. now rewrite append_nil_r.
  - rewrite IH by (intros H; apply Hno; now right).
    destruct (String.eqb extracted EmptyString); [reflexivity|].
    cbn [lines]. now rewrite !append_assoc.
  - exfalso. apply Hno. now left.
Qed.

(** X5. The OCR is invoked exactly when the direct pass raised, or read
    a text of at most 50 characters once stripped. *)
Theorem ocr_invoked_iff (pdf_file : upload) :
  Exists ocr_event (trace_of (extract_text pdf_file)) <->
  snd (direct_pass pdf_file) = true
  \/ String.length (strip (fst (direct_pass pdf_file))) <= 50.
Proof.
  rewrite extract_text_run. cbn zeta.
  destruct (snd (direct_pass pdf_file)) eqn:Hraised;
    cbn [negb andb].
  - split; [auto|]. intros _. cbn [trace_of fst app].
    do 3 apply Exists_cons_tl. apply Exists_cons_hd. exact I.
  - destruct (Nat.ltb_spec 50
                (String.length (strip (fst (direct_pass pdf_file))))) as [Hlong|Hshort].
    + split; [|intros [H|H]; [discriminate | lia]].
      cbn [trace_of fst]. intros H. inversion H as [? ? He|? ? He]; subst.
      * destruct He.
      * inversion He.
    + split; [auto|]. intros _. cbn [trace_of fst app].
      do 2 apply Exists_cons_tl. apply Exists_cons_hd. exact I.
Qed.

(** X6. [extract_text] never drops what the direct pass read: its result
    starts with that text, the OCR text comes after it; and when the
    page images cannot be made, the result is that text, however
    short. *)
Theorem direct_text_is_kept (pdf_file : upload) :
  (exists ocr_text,
     value_of (extract_text pdf_file)
     = (fst (direct_pass pdf_file) ++ ocr_text)%string)
  /\ (convert_from_bytes (content pdf_file) = None ->
      value_of (extract_text pdf_file) = fst (direct_pass pdf_file)).
Proof.
  rewrite extract_text_run. cbn zeta.
  destruct (negb (snd (direct_pass pdf_file))
            && (50 <? String.length (strip (fst (direct_pass pdf_file))))).
  - cbn [value_of snd]. split; [|reflexivity].
    exists EmptyString. now rewrite append_nil_r.
  - cbn [value_of snd]. split.
    + destruct (convert_from_bytes (content pdf_file)) as [images|].
      * apply ocr_pages_appends.
      * exists EmptyString. cbn. now rewrite append_nil_r.
    + intros ->. reflexivity.
Qed.

(** X7. When the direct pass does not give more than 50 stripped
    characters and the OCR reads every page image, the result is the
    text of the direct pass followed by the OCR text of each page and a
    line feed, and nothing is printed but the switch to the OCR. *)
Theorem ocr_text_is_appended (pdf_file : upload) (images : list image)
    (texts : list string) :
  snd (direct_pass pdf_file) = false ->
  String.length (strip (fst (direct_pass pdf_file))) <= 50 ->
  convert_from_bytes (content pdf_file) = Some images ->
  map image_to_string images = map Some texts ->
  extract_text pdf_file
  = ((EvPdfReader (content pdf_file) :: EvPrint "Switching to OCR..."
      :: EvConvert (content pdf_file)
      :: map EvImageToString (seq 0 (List.length images)))%list,
     (fst (direct_pass pdf_file) ++ lines texts)%string).
Proof.
  intros Hraised Hshort Hconvert Hocr. rewrite extract_text_run. cbn zeta.
  apply Nat.ltb_ge in Hshort. rewrite Hraised, Hshort, Hconvert.
  rewrite (ocr_pages_all _ texts) by assumption.
  cbn [negb andb trace_of value_of fst snd app]. now rewrite app_nil_r.
Qed.

(** X8. For a document whose pages all extract and give more than 50
    stripped characters in all, the result is the text of each page that
    has one, in order, each followed by a line feed; the pages without
    text add nothing. *)
Theorem readable_document_text (pdf_file : upload) (pages : list page_read) :
  pdf_reader (content pdf_file) = Some pages ->
  ~ In PageRaises pages ->
  50 < String.length (strip (lines (page_texts pages))) ->
  value_of (extract_text pdf_file) = lines (page_texts pages).
Proof.
  intros Hreader Hno Hlong. rewrite extract_text_run. cbn zeta.
  unfold direct_read. rewrite Hreader, read_pages_run by assumption.
  cbn [fst snd negb andb append]. apply Nat.ltb_lt in Hlong.
  rewrite Hlong. reflexivity.
Qed.

(** X9. A page that raises ends the direct pass: the pages after it are
    not read, the text of the pages before it is kept, and the OCR runs
    whatever the length of that text, its text coming after. *)
Theorem raising_page_ends_direct_pass (pdf_file : upload)
    (before after : list page_read) :
  pdf_reader (content pdf_file) = Some (before ++ PageRaises :: after)%list ->
  ~ In PageRaises before ->
  direct_pass pdf_file = (lines (page_texts before), true)
  /\ Exists ocr_event (trace_of (extract_text pdf_file))
  /\ exists ocr_text,
       value_of (extract_text pdf_file)
       = (lines (page_texts before) ++ ocr_text)%string.
Proof.
  intros Hreader Hno.
  assert (Hdirect : direct_pass pdf_file = (lines (page_texts before), true)).
  { unfold direct_read. rewrite Hreader.
    now rewrite read_pages_raise by assumption. }
  split; [exact Hdirect|]. rewrite extract_text_run. cbn zeta.
  rewrite Hdirect. cbn [fst snd negb andb app trace_of value_of]. split.
  - do 3 apply Exists_cons_tl. apply Exists_cons_hd. exact I.
  - destruct (convert_from_bytes (content pdf_file)) as [images|].
    + apply ocr_pages_appends.
    + exists EmptyString. cbn. now rewrite append_nil_r.
Qed.

(** *** Further properties of the route *)

(** X10. A pair with a cosine similarity of at least 0.45 is labelled
    "Partial Understanding" or "Strong Understanding", and one with at
    least 0.75 "Strong Understanding". *)
Theorem high_similarity_labels (teacher_answers : list string)
    (student_pdf : upload) (i : nat) (raw : spec_float) :
  (forall texts, List.length (encode texts) = List.length texts) ->
  F64.valid raw = true ->
  nth_error
    (raw_similarities (encode teacher_answers)
       (encode (answers_of student_pdf))) i = Some raw ->
  F64.leb f045 raw = true ->
  exists r q,
    value_of (analyze_student teacher_answers (encode teacher_answers)
                student_pdf) = inr r
    /\ nth_error (questions r) i = Some q
    /\ question_number q = (Z.of_nat i + 1)%Z
    /\ (status q = "Partial Understanding"
        \/ status q = "Strong Understanding")
    /\ (F64.leb f075 raw = true -> status q = "Strong Understanding").
Proof.
  intros Hlen Hv Hi H45. eexists. exists (question_of i raw).
  rewrite (analyze_student_run Hlen). cbn [value_of snd].
  split; [reflexivity|].
  cbn [App.student_report questions]. split.
  - rewrite nth_error_questions_from, Hi. reflexivity.
  - split; [reflexivity|]. cbn [question_of status].
    now apply status_of_high.
Qed.

Lemma py_sum_zeros (similarities : list pynum) :
  Forall (fun sim => sim = PyInt 0) similarities ->
  py_sum similarities = PyInt 0.
Proof.
  unfold py_sum. induction 1 as [|sim rest -> _ IH]; [reflexivity | exact IH].
Qed.

Lemma performance_of_zeros (similarities : list pynum) :
  similarities <> [] ->
  Forall (fun sim => sim = PyInt 0) similarities ->
  performance_of similarities = PyFloat (S754_zero false).
Proof.
  intros Hne Hz. unfold performance_of. rewrite (py_sum_zeros _ Hz).
  destruct similarities as [|sim rest]; [congruence|].
  cbn [List.length]. rewrite Nat2Z.inj_succ.
  destruct (Z.succ (Z.of_nat (List.length rest))) as [|p|p] eqn:Hp; try lia.
  unfold py_truediv, to_float.
  destruct (of_Z_positive p) as [->|(m & e & -> & _)]; reflexivity.
Qed.

Lemma questions_from_low (raws : list spec_float) :
  Forall (fun raw => F64.ltb raw F64.c020 = true) raws ->
  forall k,
    Forall (fun q => similarity_percent q = PyInt 0
                     /\ status q = "Not Related") (questions_from k raws).
Proof.
  induction 1 as [|raw rest H _ IH]; intros k; cbn [questions_from];
    constructor; [|apply IH].
  unfold question_of, percent_of, clamp. rewrite H. split; reflexivity.
Qed.

(** X11. When every pair of a student is under the noise floor, every
    entry reports the percentage 0 and "Not Related", and the
    performance score is the float 0.0. *)
Theorem all_pairs_under_noise_floor (teacher_answers : list string)
    (student_pdf : upload) :
  (forall texts, List.length (encode texts) = List.length texts) ->
  let raws :=
    raw_similarities (encode teacher_answers)
      (encode (answers_of student_pdf)) in
  raws <> [] ->
  Forall (fun raw => F64.ltb raw F64.c020 = true) raws ->
  exists r,
    value_of (analyze_student teacher_answers (encode teacher_answers)
                student_pdf) = inr r
    /\ List.length (questions r) = List.length raws
    /\ Forall (fun q => similarity_percent q = PyInt 0
                        /\ status q = "Not Related") (questions r)
    /\ performance_score r = PyFloat (S754_zero false).
Proof.
  intros Hlen raws Hne Hlow. eexists.
  rewrite (analyze_student_run Hlen). cbn [value_of snd].
  split; [reflexivity|].
  cbn [App.student_report questions performance_score]. fold raws.
  assert (Hclamp : Forall (fun sim => sim = PyInt 0) (map clamp raws)).
  { apply Forall_map. eapply Forall_impl; [|exact Hlow].
    intros raw H. unfold clamp. now rewrite H. }
  split; [apply length_questions_from|]. split.
  - now apply questions_from_low.
  - apply performance_of_zeros; [|assumption].
    destruct raws; [congruence | discriminate].
Qed.

(** X12. With a model that gives one vector for each text, the route
    answers 200 or 400, never 500; it answers 200 exactly when there is
    a teacher file, at least one student file, and the teacher document
    has an answer segment. *)
Theorem route_status (request_files : files) :
  (forall texts, List.length (encode texts) = List.length texts) ->
  let status_code := http_status (value_of (analyze request_files)) in
  (status_code = 200%Z \/ status_code = 400%Z)
  /\ (status_code = 200%Z <->
      exists teacher_pdf,
        getfirst "teacher" request_files = Some teacher_pdf
        /\ getlist "students" request_files <> []
        /\ answers_of teacher_pdf <> []).
Proof.
  intros Hlen.
  destruct (getfirst "teacher" request_files) as [teacher_pdf|] eqn:Ht.
  2:{ cbn zeta. unfold App.analyze. rewrite Ht. cbn. split; [auto|].
      split; [discriminate|]. intros (t & H & _). discriminate. }
  destruct (getlist "students" request_files) as [|s0 ss] eqn:Hs.
  { cbn zeta. unfold App.analyze. rewrite Ht, Hs. cbn. split; [auto|].
    split; [discriminate|]. intros (t & _ & H & _). congruence. }
  destruct (answers_of teacher_pdf) as [|a0 answers] eqn:Ha.
  { cbn zeta. unfold App.analyze. rewrite Ht, Hs.
    cbn [List.length Nat.eqb]. rewrite bind_eq.
    fold (answers_of teacher_pdf). rewrite Ha. cbn. split; [auto|].
    split; [discriminate|]. intros (t & H & _ & Hne).
    injection H as <-. congruence. }
  cbn zeta. rewrite (analyze_run Hlen _ _ Ht) by (rewrite ?Hs, ?Ha; discriminate).
  cbn [value_of snd http_status]. split; [auto|]. split; [|reflexivity].
  intros _. exists teacher_pdf. rewrite Ha. repeat split; discriminate.
Qed.

Lemma score_pair_missing (teacher_embeddings student_embeddings : list embedding)
    (questions : list question_result) (similarities : list pynum) (i : nat) :
  nth_error teacher_embeddings i = None
  \/ nth_error student_embeddings i = None ->
  score_pair embedding cos_sim teacher_embeddings student_embeddings
    (questions, similarities) i
  = ([], inl (IndexError i)).
Proof.
  unfold App.score_pair.
  destruct (nth_error teacher_embeddings i), (nth_error student_embeddings i);
    intros [H|H]; try discriminate; reflexivity.
Qed.

Lemma score_loop_short (teacher_embeddings : list embedding) :
  forall student_embeddings before_t before_s questions similarities more,
  List.length before_t = List.length before_s ->
  let raws := raw_similarities teacher_embeddings student_embeddings in
  score_loop (seq (List.length before_t) (List.length raws + S more))
    (before_t ++ teacher_embeddings) (before_s ++ student_embeddings)
    (questions, similarities)
  = (map EvCosSim (seq (List.length before_t) (List.length raws)),
     inl (IndexError (List.length before_t + List.length raws))).
Proof.
  assert (Hend : forall (l : list embedding), nth_error (l ++ []) (List.length l) = None).
  { intros l. apply nth_error_None. rewrite app_nil_r. lia. }
  induction teacher_embeddings as [|t ts IH];
    intros [|s ss] before_t before_s questions similarities more Hlen;
    unfold App.raw_similarities;
    cbn [combine map List.length seq Nat.add App.score_loop fst snd].
  1-3: rewrite bind_eq, score_pair_missing
    by (first [left; apply Hend | right; rewrite Hlen; apply Hend]);
    cbn [ret trace_of value_of fst snd app]; now rewrite Nat.add_0_r.
  rewrite bind_eq.
  rewrite (score_pair_run _ _ _ _ _ t s)
    by (first [apply nth_error_after | rewrite Hlen; apply nth_error_after]).
  cbn [trace_of value_of fst snd].
  replace (before_t ++ t :: ts)%list with ((before_t ++ [t]) ++ ts)%list
    by (now rewrite <- app_assoc).
  replace (before_s ++ s :: ss)%list with ((before_s ++ [s]) ++ ss)%list
    by (now rewrite <- app_assoc).
  replace (S (List.length before_t)) with (List.length (before_t ++ [t])%list)
    by (rewrite length_app; cbn; lia).
  specialize (IH ss (before_t ++ [t])%list (before_s ++ [s])%list).
  unfold App.raw_similarities in IH. cbn zeta in IH.
  rewrite IH by (rewrite !length_app; cbn; lia).
  cbn [trace_of value_of fst snd app]. rewrite length_app. cbn [List.length].
  do 3 f_equal. lia.
Qed.

(** X13. When the model gives fewer vectors than the positions to score,
    the scoring of the student stops with the index error of the first
    position without a vector, after the positions before it were
    scored. *)
Theorem missing_vector_raises (teacher_answers : list string)
    (teacher_embeddings : list embedding) (student_pdf : upload) :
  let student_embeddings := encode (answers_of student_pdf) in
  let scored :=
    Nat.min (List.length teacher_embeddings) (List.length student_embeddings) in
  answers_of student_pdf <> [] ->
  scored < Nat.min (List.length teacher_answers)
             (List.length (answers_of student_pdf)) ->
  analyze_student teacher_answers teacher_embeddings student_pdf
  = ((trace_of (extract_text student_pdf)
      ++ EvEncode (answers_of student_pdf)
         :: map EvCosSim (seq 0 scored))%list,
     inl (IndexError scored)).
Proof.
  intros student_embeddings scored Hne Hshort.
  assert (Hz : (List.length (answers_of student_pdf) =? 0) = false)
    by (apply Nat.eqb_neq; lia).
  assert (Hscored : scored = List.length
                      (raw_similarities teacher_embeddings student_embeddings)).
  { unfold App.raw_similarities. now rewrite length_map, length_combine. }
  unfold App.analyze_student. rewrite bind_eq.
  fold (answers_of student_pdf). rewrite Hz, !bind_eq.
  cbn [tell trace_of value_of fst snd]. fold student_embeddings.
  set (n := Nat.min (List.length teacher_answers)
              (List.length (answers_of student_pdf))) in *.
  replace n
    with (List.length (raw_similarities teacher_embeddings student_embeddings)
          + S (n - S scored)) by lia.
  pose proof (score_loop_short teacher_embeddings student_embeddings
                [] [] [] [] (n - S scored) eq_refl) as Hrun.
  cbn [app List.length Nat.add] in Hrun. cbn zeta in Hrun. rewrite Hrun.
  cbn [ret trace_of value_of fst snd app]. rewrite app_nil_r, <- Hscored.
  reflexivity.
Qed.

Lemma analyze_students_abort (teacher_answers : list string)
    (teacher_embeddings : list embedding) (before : list upload) :
  forall (results : list student_result) (student_pdf : upload)
         (after : list upload) (e : exn) (all_results : list student_result),
  Forall2
    (fun s r =>
       value_of (analyze_student teacher_answers teacher_embeddings s) = inr r)
    before results ->
  value_of (analyze_student teacher_answers teacher_embeddings student_pdf)
  = inl e ->
  analyze_students teacher_answers teacher_embeddings
    (before ++ student_pdf :: after) all_results
  = (List.concat
       (map (fun s => trace_of (analyze_student teacher_answers
                                   teacher_embeddings s))
          (before ++ [student_pdf])),
     inl e).
Proof.
  induction before as [|s0 before IH];
    intros results student_pdf after e all_results Hok Hfail;
    cbn [app App.analyze_students map List.concat]; rewrite bind_eq.
  - rewrite Hfail. cbn [ret trace_of value_of fst snd]. reflexivity.
  - inversion Hok as [|? r ? results' Hr Hrest]; subst. rewrite Hr.
    rewrite (IH results' student_pdf after e) by assumption.
    cbn [trace_of value_of fst snd]. reflexivity.
Qed.

(** X14. An exception in the scoring of one student ends the request:
    the answer is 500 with that exception, the results of the students
    before it are not returned, "ERROR:" is printed, and the files of the
    students after it are not read. *)
Theorem failing_student_ends_request (request_files : files)
    (teacher_pdf student_pdf : upload) (before after : list upload)
    (results : list student_result) (e : exn) :
  getfirst "teacher" request_files = Some teacher_pdf ->
  answers_of teacher_pdf <> [] ->
  getlist "students" request_files = (before ++ student_pdf :: after)%list ->
  let run :=
    analyze_student (answers_of teacher_pdf)
      (encode (answers_of teacher_pdf)) in
  Forall2 (fun s r => value_of (run s) = inr r) before results ->
  value_of (run student_pdf) = inl e ->
  analyze request_files
  = ((trace_of (extract_text teacher_pdf)
      ++ EvEncode (answers_of teacher_pdf)
         :: List.concat (map (fun s => trace_of (run s))
                           (before ++ [student_pdf]))
      ++ [EvPrint "ERROR:"])%list,
     {| http_status := 500; json := Failure e |}).
Proof.
  intros Ht Ha Hs run Hok Hfail. unfold App.analyze. rewrite Ht, Hs.
  assert (Hz1 : (List.length (before ++ student_pdf :: after) =? 0) = false)
    by (apply Nat.eqb_neq; rewrite length_app; cbn; lia).
  assert (Hz2 : (List.length (answers_of teacher_pdf) =? 0) = false)
    by (apply Nat.eqb_neq; destruct (answers_of teacher_pdf);
        [congruence | discriminate]).
  rewrite Hz1, bind_eq. fold (answers_of teacher_pdf). rewrite Hz2, !bind_eq.
  rewrite (analyze_students_abort _ _ before results student_pdf after e []
             Hok Hfail).
  cbn [tell ret trace_of value_of fst snd app]. reflexivity.
Qed.

Lemma encode_calls_app (tr1 tr2 : list event) :
  encode_calls (tr1 ++ tr2) = (encode_calls tr1 ++ encode_calls tr2)%list.
Proof. apply flat_map_app. Qed.

Lemma encode_calls_quiet (tr : list event) :
  Forall (fun e => ~ scoring_event e) tr -> encode_calls tr = [].
Proof.
  induction 1 as [|e tr He _ IH]; [reflexivity|].
  unfold encode_calls in *. cbn [flat_map]. rewrite IH.
  destruct e; try reflexivity. exfalso. apply He. exact I.
Qed.

Lemma encode_calls_cos_sim (range : list nat) :
  encode_calls (map EvCosSim range) = [].
Proof. induction range as [|i range IH]; [reflexivity | exact IH]. Qed.

Lemma encode_calls_student (teacher_embeddings : list embedding)
    (student_pdf : upload) :
  encode_calls (student_trace teacher_embeddings student_pdf)
  = if nonempty (answers_of student_pdf) then [answers_of student_pdf] else [].
Proof.
  unfold App.student_trace. rewrite encode_calls_app.
  rewrite (encode_calls_quiet _ (extract_text_no_scoring student_pdf)).
  destruct (answers_of student_pdf) as [|a answers']; [reflexivity|].
  cbn [app nonempty]. unfold encode_calls at 1. cbn [flat_map].
  fold (encode_calls
          (map EvCosSim
             (seq 0 (List.length
                       (raw_similarities teacher_embeddings
                          (encode (a :: answers'))))))).
  now rewrite encode_calls_cos_sim.
Qed.

Lemma encode_calls_students (teacher_embeddings : list embedding)
    (student_pdfs : list upload) :
  encode_calls (List.concat (map (student_trace teacher_embeddings) student_pdfs))
  = filter nonempty (map (fun s => answers_of s) student_pdfs).
Proof.
  induction student_pdfs as [|s0 ss IH]; [reflexivity|].
  cbn [map List.concat filter].
  rewrite encode_calls_app, encode_calls_student, IH.
  destruct (nonempty (answers_of s0)); reflexivity.
Qed.

(** X15. In a successful request the answers of the teacher are encoded
    once, before any student, whatever the number of students; after
    that the answers of each student that has some are encoded once, in
    the order of the files. *)
Theorem teacher_encoded_once (request_files : files)
    (data : list student_result) :
  (forall texts, List.length (encode texts) = List.length texts) ->
  json (value_of (analyze request_files)) = Success data ->
  exists teacher_pdf,
    getfirst "teacher" request_files = Some teacher_pdf
    /\ encode_calls (trace_of (analyze request_files))
       = answers_of teacher_pdf
         :: filter nonempty
              (map (fun s => answers_of s)
                 (getlist "students" request_files)).
Proof.
  intros Hlen Hok.
  destruct (analyze_success Hlen _ _ Hok) as (teacher_pdf & Ht & Hs & Ha & _).
  exists teacher_pdf. split; [exact Ht|].
  rewrite (analyze_run Hlen _ _ Ht Hs Ha). cbn [trace_of fst].
  rewrite encode_calls_app.
  rewrite (encode_calls_quiet _ (extract_text_no_scoring teacher_pdf)).
  cbn [app].
  change (EvEncode (answers_of teacher_pdf) :: ?tr)
    with ([EvEncode (answers_of teacher_pdf)] ++ tr)%list.
  rewrite encode_calls_app, encode_calls_students. reflexivity.
Qed.

Lemma getfirst_request_of (teacher_pdf : upload) (student_pdfs : list upload) :
  getfirst "teacher" (request_of teacher_pdf student_pdfs) = Some teacher_pdf.
Proof. reflexivity. Qed.

Lemma getlist_request_of (teacher_pdf : upload) (student_pdfs : list upload) :
  getlist "students" (request_of teacher_pdf student_pdfs) = student_pdfs.
Proof.
  unfold request_of, getlist. cbn [filter fst String.eqb Ascii.eqb Bool.eqb].
  induction student_pdfs as [|s0 ss IH]; [reflexivity|].
  cbn [map filter fst snd String.eqb Ascii.eqb Bool.eqb]. now rewrite IH.
Qed.

(** X16. The students of a request are scored one by one, each against
    the same teacher answers: the results for the student files [l1]
    followed by [l2] are the results for [l1] followed by the results
    for [l2]. *)
Theorem results_compose (teacher_pdf : upload) (l1 l2 : list upload) :
  (forall texts, List.length (encode texts) = List.length texts) ->
  answers_of teacher_pdf <> [] ->
  l1 <> [] -> l2 <> [] ->
  exists data1 data2,
    value_of (analyze (request_of teacher_pdf l1))
    = {| http_status := 200; json := Success data1 |}
    /\ value_of (analyze (request_of teacher_pdf l2))
       = {| http_status := 200; json := Success data2 |}
    /\ value_of (analyze (request_of teacher_pdf (l1 ++ l2)))
       = {| http_status := 200; json := Success (data1 ++ data2) |}.
Proof.
  intros Hlen Ha H1 H2.
  assert (Hrun : forall l, l <> [] ->
            value_of (analyze (request_of teacher_pdf l))
            = {| http_status := 200;
                 json := Success
                           (map (student_report (encode (answers_of teacher_pdf)))
                              l) |}).
  { intros l Hl.
    rewrite (analyze_run Hlen _ _ (getfirst_request_of teacher_pdf l))
      by (rewrite ?getlist_request_of; assumption).
    cbn [value_of snd]. now rewrite getlist_request_of. }
  do 2 eexists. rewrite !Hrun by (try assumption; now destruct l1).
  rewrite map_app. repeat split.
Qed.

(** X17. A teacher file that neither the PDF reader nor the OCR can open
    is a validation error, not a failure: both exceptions are caught and
    printed, the text is empty, and the route answers 400 "Teacher
    answers could not be extracted" without reading a student file. *)
Theorem unreadable_teacher_is_400 (request_files : files)
    (teacher_pdf : upload) :
  getfirst "teacher" request_files = Some teacher_pdf ->
  getlist "students" request_files <> [] ->
  pdf_reader (content teacher_pdf) = None ->
  convert_from_bytes (content teacher_pdf) = None ->
  analyze request_files
  = ([EvPdfReader (content teacher_pdf);
      EvPrint "Normal extraction failed:";
      EvPrint "Switching to OCR...";
      EvConvert (content teacher_pdf);
      EvPrint "OCR failed:"],
     {| http_status := 400;
        json := Error "Teacher answers could not be extracted" |}).
Proof.
  intros Ht Hs Hreader Hconvert.
  assert (Hextract : extract_text teacher_pdf
                     = ([EvPdfReader (content teacher_pdf);
                         EvPrint "Normal extraction failed:";
                         EvPrint "Switching to OCR...";
                         EvConvert (content teacher_pdf);
                         EvPrint "OCR failed:"], EmptyString)).
  { rewrite extract_text_run. unfold direct_read.
    rewrite Hreader, Hconvert. reflexivity. }
  unfold App.analyze. rewrite Ht.
  destruct (getlist "students" request_files); [congruence|].
  cbn [List.length Nat.eqb]. rewrite bind_eq, Hextract.
  reflexivity.
Qed.

End RouteFacts.


(** ** The claims at work, on the instance [Demo] *)

Lemma status_by_thresholds_witness :
  json (value_of (Demo.analyze Demo.request_files)) = Success Demo.data
  /\ (status Demo.entry2 = "Not Related"
      <-> similarity_percent Demo.entry2 = PyInt 0).
Proof.
  assert (Hok : json (value_of (Demo.analyze Demo.request_files))
                = Success Demo.data) by (vm_compute; reflexivity).
  split; [exact Hok|].
  apply (status_by_thresholds Demo.pdf_reader Demo.image
           Demo.convert_from_bytes Demo.image_to_string Demo.embedding
           Demo.encode Demo.cos_sim Demo.request_files Demo.data
           Demo.report1 Demo.entry2).
  - intros texts. reflexivity.
  - intros a b. unfold Demo.cos_sim.
    destruct (String.eqb a b), (String.length a =? String.length b)%nat;
      reflexivity.
  - intros a b. unfold Demo.cos_sim.
    destruct (String.eqb a b), (String.length a =? String.length b)%nat;
      discriminate.
  - exact Hok.
  - simpl. auto.
  - simpl. auto.
Defined.

Lemma percent_zero_or_at_least_20_witness :
  ~ (py_lt (PyInt 0) (similarity_percent Demo.entry1) = true
     /\ py_lt (similarity_percent Demo.entry1) (PyInt 20) = true).
Proof.
  apply (percent_zero_or_at_least_20 Demo.pdf_reader Demo.image
           Demo.convert_from_bytes Demo.image_to_string Demo.embedding
           Demo.encode Demo.cos_sim Demo.request_files Demo.data
           Demo.report1 Demo.entry1).
  - intros texts. reflexivity.
  - intros a b. unfold Demo.cos_sim.
    destruct (String.eqb a b), (String.length a =? String.length b)%nat;
      reflexivity.
  - intros a b. unfold Demo.cos_sim.
    destruct (String.eqb a b), (String.length a =? String.length b)%nat;
      discriminate.
  - vm_compute. reflexivity.
  - simpl. auto.
  - simpl. auto.
Defined.

Lemma performance_is_mean_witness :
  exists r,
    value_of (analyze_student Demo.pdf_reader Demo.image
                Demo.convert_from_bytes Demo.image_to_string Demo.embedding
                Demo.encode Demo.cos_sim Demo.teacher_answers
                (Demo.encode Demo.teacher_answers) Demo.student1_pdf) = inr r
    /\ performance_score r = PyFloat (F64.of_Z 50).
Proof.
  destruct (performance_is_mean Demo.pdf_reader Demo.image
              Demo.convert_from_bytes Demo.image_to_string Demo.embedding
              Demo.encode Demo.cos_sim Demo.teacher_answers
              Demo.student1_pdf (fun texts => eq_refl))
    as (r & Hr & _ & Hscore & _).
  exists r. split; [exact Hr|]. rewrite Hscore. vm_compute. reflexivity.
Defined.

Lemma noise_floor_witness :
  exists r,
    value_of (analyze_student Demo.pdf_reader Demo.image
                Demo.convert_from_bytes Demo.image_to_string Demo.embedding
                Demo.encode Demo.cos_sim Demo.teacher_answers
                (Demo.encode Demo.teacher_answers) Demo.student1_pdf) = inr r
    /\ nth_error (questions r) 1
       = Some {| question_number := 2;
                 similarity_percent := PyInt 0;
                 status := "Not Related" |}.
Proof.
  destruct (noise_floor Demo.pdf_reader Demo.image
              Demo.convert_from_bytes Demo.image_to_string Demo.embedding
              Demo.encode Demo.cos_sim Demo.teacher_answers
              Demo.student1_pdf 1%nat F64.c010 (fun texts => eq_refl))
    as (r & Hr & Hq & _).
  - vm_compute. reflexivity.
  - vm_compute. reflexivity.
  - exists r. split; [exact Hr | exact Hq].
Defined.

Lemma one_entry_per_aligned_pair_witness :
  exists teacher_pdf,
    getfirst "teacher" Demo.request_files = Some teacher_pdf
    /\ Forall2
         (fun student_pdf r =>
            pdf_name r = filename student_pdf
            /\ List.length (questions r)
               = Nat.min
                   (List.length
                      (answers_of Demo.pdf_reader Demo.image
                         Demo.convert_from_bytes Demo.image_to_string
                         teacher_pdf))
                   (List.length
                      (answers_of Demo.pdf_reader Demo.image
                         Demo.convert_from_bytes Demo.image_to_string
                         student_pdf))
            /\ map question_number (questions r)
               = map (fun k => (Z.of_nat k + 1)%Z)
                   (seq 0 (List.length (questions r))))
         (getlist "students" Demo.request_files) Demo.data.
Proof.
  apply (one_entry_per_aligned_pair Demo.pdf_reader Demo.image
           Demo.convert_from_bytes Demo.image_to_string Demo.embedding
           Demo.encode Demo.cos_sim Demo.request_files Demo.data).
  - intros texts. reflexivity.
  - vm_compute. reflexivity.
Defined.

Lemma validation_errors_witness :
  Demo.analyze [("students", Demo.student1_pdf)]
  = ([], {| http_status := 400; json := Error "Teacher key not uploaded" |})
  /\ Demo.analyze [("teacher", Demo.teacher_pdf)]
     = ([], {| http_status := 400; json := Error "No student files uploaded" |})
  /\ value_of (Demo.analyze [("teacher", Demo.student2_pdf);
                             ("students", Demo.student1_pdf)])
     = {| http_status := 400;
          json := Error "Teacher answers could not be extracted" |}.
Proof.
  split; [|split].
  - apply (validation_errors Demo.pdf_reader Demo.image
             Demo.convert_from_bytes Demo.image_to_string Demo.embedding
             Demo.encode Demo.cos_sim [("students", Demo.student1_pdf)]).
    reflexivity.
  - apply (proj1 (proj2
             (validation_errors Demo.pdf_reader Demo.image
                Demo.convert_from_bytes Demo.image_to_string Demo.embedding
                Demo.encode Demo.cos_sim [("teacher", Demo.teacher_pdf)]))
             Demo.teacher_pdf); reflexivity.
  - destruct (proj2 (proj2
                (validation_errors Demo.pdf_reader Demo.image
                   Demo.convert_from_bytes Demo.image_to_string
                   Demo.embedding Demo.encode Demo.cos_sim
                   [("teacher", Demo.student2_pdf);
                    ("students", Demo.student1_pdf)]))
                Demo.student2_pdf) as [H _].
    + reflexivity.
    + discriminate.
    + vm_compute. reflexivity.
    + unfold Demo.analyze. rewrite H. reflexivity.
Defined.

Lemma empty_student_not_scored_witness :
  value_of (Demo.analyze Demo.request_files)
  = {| http_status := 200; json := Success Demo.data |}
  /\ Forall (fun e => ~ scoring_event e)
       (trace_of
          (analyze_student Demo.pdf_reader Demo.image
             Demo.convert_from_bytes Demo.image_to_string Demo.embedding
             Demo.encode Demo.cos_sim Demo.teacher_answers
             (Demo.encode Demo.teacher_answers) Demo.student2_pdf)).
Proof.
  destruct (empty_student_not_scored Demo.pdf_reader Demo.image
              Demo.convert_from_bytes Demo.image_to_string Demo.embedding
              Demo.encode Demo.cos_sim Demo.request_files Demo.teacher_pdf
              Demo.student2_pdf [Demo.student1_pdf] [Demo.student3_pdf])
    as (_ & Hquiet & _).
  - intros texts. reflexivity.
  - reflexivity.
  - vm_compute. discriminate.
  - reflexivity.
  - vm_compute. reflexivity.
  - split; [vm_compute; reflexivity | exact Hquiet].
Defined.

Lemma direct_text_skips_ocr_witness :
  Forall (fun e => ~ ocr_event e)
    (trace_of (Demo.extract_text Demo.teacher_pdf)).
Proof.
  apply (direct_text_skips_ocr Demo.pdf_reader Demo.image
           Demo.convert_from_bytes Demo.image_to_string Demo.teacher_pdf
           [PageText (content Demo.teacher_pdf)]
           (content Demo.teacher_pdf ++ newline)).
  - reflexivity.
  - reflexivity.
  - vm_compute. lia.
Defined.

(** ** The further properties at work *)

Lemma segments_are_trimmed_substrings_witness :
  substring_of "Hello world this is long enough."
    "1. Hello world this is long enough. 2. Short."
  /\ trimmed "Hello world this is long enough."
  /\ (20 < String.length "Hello world this is long enough.")%nat.
Proof.
  apply (segments_are_trimmed_substrings
           "1. Hello world this is long enough. 2. Short."
           "Hello world this is long enough.").
  vm_compute. auto.
Defined.

Lemma text_without_digit_is_one_segment_witness :
  split_answers "  Water boils at a hundred degrees.  "
  = ["Water boils at a hundred degrees."].
Proof.
  apply (text_without_digit_is_one_segment
           "  Water boils at a hundred degrees.  ").
  reflexivity.
Defined.

Lemma ocr_text_is_appended_witness :
  value_of (extract_text Scan.pdf_reader Scan.image Scan.convert_from_bytes
              Scan.image_to_string Scan.document)
  = (content Scan.document ++ newline)%string.
Proof.
  rewrite (ocr_text_is_appended Scan.pdf_reader Scan.image
             Scan.convert_from_bytes Scan.image_to_string Scan.document
             [content Scan.document] [content Scan.document]).
  - reflexivity.
  - reflexivity.
  - vm_compute. lia.
  - reflexivity.
  - reflexivity.
Defined.

Lemma readable_document_text_witness :
  value_of (Demo.extract_text Demo.teacher_pdf)
  = (content Demo.teacher_pdf ++ newline)%string.
Proof.
  apply (readable_document_text Demo.pdf_reader Demo.image
           Demo.convert_from_bytes Demo.image_to_string Demo.teacher_pdf
           [PageText (content Demo.teacher_pdf)]).
  - reflexivity.
  - intros [H|[]]. discriminate.
  - vm_compute. lia.
Defined.

Lemma raising_page_ends_direct_pass_witness :
  direct_read Torn.pdf_reader Demo.teacher_pdf
  = ((content Demo.teacher_pdf ++ newline)%string, true).
Proof.
  destruct (raising_page_ends_direct_pass Torn.pdf_reader Demo.image
              Demo.convert_from_bytes Demo.image_to_string Demo.teacher_pdf
              [PageText (content Demo.teacher_pdf)]
              [PageText (content Demo.teacher_pdf)]) as [H _].
  - reflexivity.
  - intros [H|[]]. discriminate.
  - exact H.
Defined.

Lemma high_similarity_labels_witness :
  exists r q,
    value_of (analyze_student Demo.pdf_reader Demo.image
                Demo.convert_from_bytes Demo.image_to_string Demo.embedding
                Demo.encode Demo.cos_sim Demo.teacher_answers
                (Demo.encode Demo.teacher_answers) Demo.student1_pdf) = inr r
    /\ nth_error (questions r) 0 = Some q
    /\ status q = "Strong Understanding".
Proof.
  destruct (high_similarity_labels Demo.pdf_reader Demo.image
              Demo.convert_from_bytes Demo.image_to_string Demo.embedding
              Demo.encode Demo.cos_sim Demo.teacher_answers
              Demo.student1_pdf 0
              (S754_finite false 4503599627370496 (-52)))
    as (r & q & Hr & Hq & _ & _ & Hstrong).
  - intros texts. reflexivity.
  - reflexivity.
  - vm_compute. reflexivity.
  - reflexivity.
  - exists r, q. split; [exact Hr|]. split; [exact Hq|].
    apply Hstrong. reflexivity.
Defined.

Lemma all_pairs_under_noise_floor_witness :
  exists r,
    value_of (analyze_student Demo.pdf_reader Demo.image
                Demo.convert_from_bytes Demo.image_to_string Demo.embedding
                Demo.encode Demo.cos_sim Demo.teacher_answers
                (Demo.encode Demo.teacher_answers) Demo.student3_pdf) = inr r
    /\ performance_score r = PyFloat (S754_zero false).
Proof.
  destruct (all_pairs_under_noise_floor Demo.pdf_reader Demo.image
              Demo.convert_from_bytes Demo.image_to_string Demo.embedding
              Demo.encode Demo.cos_sim Demo.teacher_answers
              Demo.student3_pdf)
    as (r & Hr & _ & _ & Hscore).
  - intros texts. reflexivity.
  - vm_compute. discriminate.
  - apply Forall_forall. intros raw Hin. vm_compute in Hin.
    destruct Hin as [<- | []]. reflexivity.
  - exists r. split; [exact Hr | exact Hscore].
Defined.

Lemma route_status_witness :
  http_status (value_of (Demo.analyze Demo.request_files)) = 200%Z
  \/ http_status (value_of (Demo.analyze Demo.request_files)) = 400%Z.
Proof.
  apply (route_status Demo.pdf_reader Demo.image Demo.convert_from_bytes
           Demo.image_to_string Demo.embedding Demo.encode Demo.cos_sim
           Demo.request_files).
  intros texts. reflexivity.
Defined.

Lemma missing_vector_raises_witness :
  value_of (analyze_student Demo.pdf_reader Demo.image
              Demo.convert_from_bytes Demo.image_to_string Demo.embedding
              Lossy.encode Demo.cos_sim Demo.teacher_answers
              (Lossy.encode Demo.teacher_answers) Demo.student1_pdf)
  = inl (IndexError 1).
Proof.
  rewrite (missing_vector_raises Demo.pdf_reader Demo.image
             Demo.convert_from_bytes Demo.image_to_string Demo.embedding
             Lossy.encode Demo.cos_sim Demo.teacher_answers
             (Lossy.encode Demo.teacher_answers) Demo.student1_pdf).
  - reflexivity.
  - vm_compute. discriminate.
  - vm_compute. lia.
Defined.

Lemma failing_student_ends_request_witness :
  value_of (Lossy.analyze Demo.request_files)
  = {| http_status := 500; json := Failure (IndexError 1) |}.
Proof.
  unfold Lossy.analyze.
  rewrite (failing_student_ends_request Demo.pdf_reader Demo.image
             Demo.convert_from_bytes Demo.image_to_string Demo.embedding
             Lossy.encode Demo.cos_sim Demo.request_files Demo.teacher_pdf
             Demo.student1_pdf [] [Demo.student2_pdf; Demo.student3_pdf]
             [] (IndexError 1)).
  - reflexivity.
  - reflexivity.
  - vm_compute. discriminate.
  - reflexivity.
  - constructor.
  - vm_compute. reflexivity.
Defined.

Lemma teacher_encoded_once_witness :
  exists teacher_pdf,
    getfirst "teacher" Demo.request_files = Some teacher_pdf
    /\ encode_calls (trace_of (Demo.analyze Demo.request_files))
       = answers_of Demo.pdf_reader Demo.image Demo.convert_from_bytes
           Demo.image_to_string teacher_pdf
         :: filter nonempty
              (map (fun s =>
                      answers_of Demo.pdf_reader Demo.image
                        Demo.convert_from_bytes Demo.image_to_string s)
                 (getlist "students" Demo.request_files)).
Proof.
  apply (teacher_encoded_once Demo.pdf_reader Demo.image
           Demo.convert_from_bytes Demo.image_to_string Demo.embedding
           Demo.encode Demo.cos_sim Demo.request_files Demo.data).
  - intros texts. reflexivity.
  - vm_compute. reflexivity.
Defined.

Lemma results_compose_witness :
  exists data1 data2,
    value_of (Demo.analyze (request_of Demo.teacher_pdf [Demo.student1_pdf]))
    = {| http_status := 200; json := Success data1 |}
    /\ value_of (Demo.analyze
                   (request_of Demo.teacher_pdf
                      [Demo.student2_pdf; Demo.student3_pdf]))
       = {| http_status := 200; json := Success data2 |}
    /\ value_of (Demo.analyze
                   (request_of Demo.teacher_pdf
                      ([Demo.student1_pdf]
                       ++ [Demo.student2_pdf; Demo.student3_pdf])))
       = {| http_status := 200; json := Success (data1 ++ data2) |}.
Proof.
  apply (results_compose Demo.pdf_reader Demo.image Demo.convert_from_bytes
           Demo.image_to_string Demo.embedding Demo.encode Demo.cos_sim
           Demo.teacher_pdf [Demo.student1_pdf]
           [Demo.student2_pdf; Demo.student3_pdf]).
  - intros texts. reflexivity.
  - vm_compute. discriminate.
  - discriminate.
  - discriminate.
Defined.

Lemma unreadable_teacher_is_400_witness :
  value_of (Unreadable.analyze Demo.request_files)
  = {| http_status := 400;
       json := Error "Teacher answers could not be extracted" |}.
Proof.
  unfold Unreadable.analyze.
  rewrite (unreadable_teacher_is_400 Unreadable.pdf_reader Demo.image
             Demo.convert_from_bytes Demo.image_to_string Demo.embedding
             Demo.encode Demo.cos_sim Demo.request_files Demo.teacher_pdf).
  - reflexivity.
  - reflexivity.
  - discriminate.
  - reflexivity.
  - reflexivity.
Defined.
